(** * altcoins-monitor: a price-alert bot over a trade-tick stream

    A shallow embedding of the two programs of the repository:

    - [VariantA] is [main.go]: threshold alerts, a process-wide
      de-duplication flag with a one-minute timer, and Telegram fan-out;
    - [VariantB] is the second file: threshold alerts that are only logged.

    Go's [float64] is Rocq's primitive binary64 [float]; Go strings are byte
    strings ([string]); [int64] values are [Z] (the program never does
    arithmetic on them); the [map[string][]float64] table is a
    [gmap string (list float)].  Calls into libraries that are not part of
    the repository ([json.Unmarshal], [strconv.ParseFloat], [bot.Send],
    [uuid.New], the websocket connection) are the fields of the [GoLib]
    interface or inputs of the run.  A run is followed through the results
    that [conn.ReadMessage] returns, one loop pass per result; in variant A
    each result carries the instant at which it arrives, so that the
    one-minute timer can be followed too. *)

From Stdlib Require Import Floats ZArith String Ascii List Bool Lia Sorted.
From stdpp Require Import base strings list gmap.
Import ListNotations.

Set Warnings "-inexact-float".
Set Default Proof Using "Type".
Local Open Scope string_scope.

(** ** Go's [strings] package, on byte strings *)

Module Strings.

(** [strings.ToLower] on ASCII input: bytes ['A'..'Z'] move to
    ['a'..'z'], every other byte below 0x80 is kept.  (On bytes from 0x80
    Go maps whole runes; [isASCII] marks the inputs this definition is
    exact for, and every key of both tables satisfies it.) *)
Definition lowerByte (c : ascii) : ascii :=
  let n := nat_of_ascii c in
  if (65 <=? n)%nat && (n <=? 90)%nat then ascii_of_nat (n + 32) else c.

Fixpoint ToLower (s : string) : string :=
  match s with
  | EmptyString => EmptyString
  | String c r => String (lowerByte c) (ToLower r)
  end.


(** [strings.Join(elems, sep)]. *)
Fixpoint Join (elems : list string) (sep : string) : string :=
  match elems with
  | [] => ""
  | [e] => e
  | e :: rest => e ++ sep ++ Join rest sep
  end.

(** The six ASCII bytes of Go's [asciiSpace] table:
    tab, newline, vertical tab, form feed, carriage return, space. *)
Definition asciiSpace (c : nat) : bool :=
  ((9 <=? c)%nat && (c <=? 13)%nat) || (c =? 32)%nat.

(** UTF-8 encodings of the white-space runes above 0x7F that
    [unicode.IsSpace] accepts: U+0085, U+00A0 (two bytes) and U+1680,
    U+2000..U+200A, U+2028, U+2029, U+202F, U+205F, U+3000 (three). *)
Definition space2 (c1 c2 : nat) : bool :=
  (c1 =? 194)%nat && ((c2 =? 133)%nat || (c2 =? 160)%nat).

Definition space3 (c1 c2 c3 : nat) : bool :=
  ((c1 =? 225)%nat && (c2 =? 154)%nat && (c3 =? 128)%nat)
  || ((c1 =? 226)%nat && (c2 =? 128)%nat
      && (((128 <=? c3)%nat && (c3 <=? 138)%nat)
          || (c3 =? 168)%nat || (c3 =? 169)%nat || (c3 =? 175)%nat))
  || ((c1 =? 226)%nat && (c2 =? 129)%nat && (c3 =? 159)%nat)
  || ((c1 =? 227)%nat && (c2 =? 128)%nat && (c3 =? 128)%nat).

(** Drop white-space runes from the front of a byte list.  [sp2] and [sp3]
    recognise the multi-byte runes in the order the bytes are met, so the
    same function trims the reversed string from its end. *)
Fixpoint trimFront (sp2 : nat -> nat -> bool) (sp3 : nat -> nat -> nat -> bool)
    (s : list nat) : list nat :=
  match s with
  | [] => []
  | c1 :: r1 =>
      if asciiSpace c1 then trimFront sp2 sp3 r1
      else
        match r1 with
        | [] => s
        | c2 :: r2 =>
            if sp2 c1 c2 then trimFront sp2 sp3 r2
            else
              match r2 with
              | [] => s
              | c3 :: r3 => if sp3 c1 c2 c3 then trimFront sp2 sp3 r3 else s
              end
        end
  end.

Definition bytes (s : string) : list nat := map nat_of_ascii (list_ascii_of_string s).
Definition ofBytes (l : list nat) : string := string_of_list_ascii (map ascii_of_nat l).

(** [strings.TrimSpace]: leading and trailing white space removed. *)
Definition TrimSpace (s : string) : string :=
  let front := trimFront space2 space3 (bytes s) in
  let back :=
    trimFront (fun c2 c1 => space2 c1 c2) (fun c3 c2 c1 => space3 c1 c2 c3) (rev front) in
  ofBytes (rev back).

End Strings.

(** ** Declarations common to both files *)

Definition binanceWSSURL : string := "wss://stream.binance.com:9443/ws".

(** [TradeMessage]: the JSON trade event, one field per key. *)
Record TradeMessage := {
  Event : string;          (* "e" *)
  EventTime : Z;           (* "E" *)
  Symbol : string;         (* "s" *)
  TradeID : Z;             (* "t" *)
  Price : string;          (* "p" *)
  Quantity : string;       (* "q" *)
  Timestamp : Z;           (* "T" *)
  IsMarketMaker : bool;    (* "m" *)
  Ignore : bool            (* "M" *)
}.

(** [isWithinThreshold]: the same five lines in both files.  [0.99] and
    [1.01] are the binary64 values nearest to the decimal constants, as Go's
    constant conversion gives them; [*] and [<=?] are IEEE 754 operations,
    and [price >= lowerBound] is [lowerBound <=? price] (both are false when
    either side is a NaN). *)
Definition isWithinThreshold (price target : float) : bool :=
  let lowerBound := (target * 0.99)%float in
  let upperBound := (target * 1.01)%float in
  (lowerBound <=? price)%float && (price <=? upperBound)%float.

(** The subscription control message
    [{"method": "SUBSCRIBE", "params": assets, "id": requestID}]. *)
Record SubscribeMessage := {
  method : string;
  params : list string;
  id : string
}.

(** [TradeTelegramMessage] of [main.go]. *)
Record TradeTelegramMessage := {
  ChatID : Z;
  MsgSymbol : string;
  MsgPrice : float;
  MsgTarget : float
}.

(** ** The library surface and the observable behaviour *)

(** What the programs call outside the repository.  [json_Unmarshal] and
    [strconv_ParseFloat] return [None] exactly when the Go call returns a
    non-nil error; [bot_Send n m] is the outcome of the [n]-th call to
    [bot.Send] of the run, [true] when its error is nil. *)
Class GoLib := {
  json_Unmarshal : string -> option TradeMessage;
  strconv_ParseFloat : string -> option float;
  bot_Send : nat -> TradeTelegramMessage -> bool
}.

(** One result of [conn.ReadMessage()]: an error ([closeErr] tells whether
    [websocket.IsCloseError] recognises it) or a message body. *)
Inductive ReadResult :=
| ReadErr (closeErr : bool)
| ReadOk (message : string).

(** The inputs of [main] that are decided outside it: the order in which
    [range priceTargets] visits the keys, whether [NewBotAPI], [Dial] and
    [WriteJSON] fail, and the value of [uuid.New().String()]. *)
Record Startup := {
  rangeOrder : list string;
  botErr : bool;
  dialErr : bool;
  requestID : string;
  writeErr : bool
}.

(** Everything a run does that can be seen from outside, in program order:
    network calls and log lines (a log line keeps the values it prints). *)
Inductive Effect :=
| LogBotError
| Dial (url : string)
| LogFatalDial
| LogConnected
| WriteJSON (m : SubscribeMessage)
| LogFatalSubscribe
| LogSubscribed (assets : list string)
| LogClosed
| LogReadError
| LogDecodeError
| LogConvertError
| LogPrice (symbol : string) (price : float)
| LogAlert (symbol : string) (price target : float)
| BotSend (m : TradeTelegramMessage)
| LogSendError (chat : Z)
| LogShutdown.

(** How one pass through the body of the reader's [for] loop ends. *)
Inductive Control :=
| Next          (* falls through or [continue]: the next [ReadMessage] *)
| Return        (* [return]: the deferred [close(done)] wakes [main] *)
| Panicked.     (* [panic(err)] or a nil dereference: the process crashes *)

(** How the process ends. *)
Inductive Exit :=
| Interrupted   (* the frames seen so far were all handled, then a signal came *)
| StreamEnded   (* the reader returned *)
| Crashed       (* unrecovered panic in the reader *)
| Fatal.        (* [log.Fatalf] during start-up *)

Definition streamName (asset : string) : string :=
  Strings.ToLower asset ++ "@trade".

(** ** Variant B: alerts are logged *)

Module VariantB.

Definition priceTargets : gmap string (list float) :=
  list_to_map [
    ("ICPUSDT",    [13.6; 13; 12.5]);
    ("LINKUSDT",   [21.7; 20.8; 18.44]);
    ("KSMUSDT",    [40; 37]);
    ("DIAUSDT",    [0.83; 0.73]);
    ("COTIUSDT",   [15; 14.4; 13.5]);
    ("SOLUSDT",    [210; 200; 190]);
    ("XLMUSDT",    [0.42; 0.36; 0.30]);
    ("KDAUSDT",    [1.377; 1.275; 1.15]);
    ("ALGOUSDT",   [0.42; 0.36; 0.30]);
    ("PENDLEUSDT", [6.1; 5.9; 5.6]);
    ("RNDRUSDT",   [9; 8; 7.2]);
    ("AAVEUSDT",   [220; 200; 183]);
    ("RAYUSDT",    [4.5; 4; 3.4]);
    ("JASMYUSDT",  [0.45]);
    ("GALAUSDT",   [0.50; 0.46; 0.40]);
    ("AVAXUSDT",   [47; 43]);
    ("SUPERUSDT",  [1.6; 1.5]);
    ("RSRUSDT",    [0.01800; 0.01500; 0.012])
  ]%float.

Section Program.
Context `{GoLib}.

(** [for _, target := range targets { if isWithinThreshold ... }] *)
Fixpoint rangeTargets (trade : TradeMessage) (currentPrice : float)
    (targets : list float) : list Effect :=
  match targets with
  | [] => []
  | target :: rest =>
      ((if isWithinThreshold currentPrice target
        then [LogAlert (Symbol trade) currentPrice target]
        else [])
       ++ rangeTargets trade currentPrice rest)%list
  end.

(** The lookup in the table and what follows it. *)
Definition evaluate (trade : TradeMessage) (currentPrice : float) : list Effect :=
  match priceTargets !! Symbol trade with
  | Some targets => rangeTargets trade currentPrice targets
  | None => [LogPrice (Symbol trade) currentPrice]
  end.

(** One pass through the body of the reader's loop. *)
Definition iteration (r : ReadResult) : list Effect * Control :=
  match r with
  | ReadErr closeErr => ([if closeErr then LogClosed else LogReadError], Return)
  | ReadOk message =>
      match json_Unmarshal message with
      | None => ([LogDecodeError], Panicked)
      | Some trade =>
          if String.eqb (Strings.TrimSpace (Event trade)) "trade" then
            match strconv_ParseFloat (Price trade) with
            | None => ([LogConvertError], Next)
            | Some currentPrice => (evaluate trade currentPrice, Next)
            end
          else ([], Next)
      end
  end.

(** The reader goroutine on the results [ReadMessage] gives it. *)
Fixpoint reader (rs : list ReadResult) : list Effect * Exit :=
  match rs with
  | [] => ([], Interrupted)
  | r :: rest =>
      let '(out, c) := iteration r in
      match c with
      | Next => let '(out', e) := reader rest in ((out ++ out')%list, e)
      | Return => (out, StreamEnded)
      | Panicked => (out, Crashed)
      end
  end.

Definition assets (s : Startup) : list string := map streamName (rangeOrder s).

Definition subscribeMessage (s : Startup) : SubscribeMessage :=
  {| method := "SUBSCRIBE"; params := assets s; id := requestID s |}.

(** [main]: connect, subscribe, start the reader, wait on [done]. *)
Definition main (s : Startup) (rs : list ReadResult) : list Effect * Exit :=
  let streams := Strings.Join (assets s) "/" in
  let dial := Dial (binanceWSSURL ++ "/" ++ streams) in
  if dialErr s then ([dial; LogFatalDial], Fatal)
  else if writeErr s then
    ([dial; LogConnected; WriteJSON (subscribeMessage s); LogFatalSubscribe], Fatal)
  else
    let '(out, e) := reader rs in
    (([dial; LogConnected; WriteJSON (subscribeMessage s); LogSubscribed (assets s)]
        ++ out ++ match e with Crashed => [] | _ => [LogShutdown] end)%list, e).

End Program.

End VariantB.

(** ** Variant A: de-duplicated alerts sent to Telegram *)

Module VariantA.

Definition chatIds : list Z := [-1002314879454; 6753790669; 6717764833]%Z.

Definition priceTargets : gmap string (list float) :=
  list_to_map [
    ("LINKUSDT",   [21.7; 20.8; 18.44; 25.00]);
    ("KSMUSDT",    [40; 37]);
    ("COTIUSDT",   [15.4; 14.4; 12.7]);
    ("SOLUSDT",    [210; 200; 190]);
    ("XLMUSDT",    [0.42; 0.36; 0.30]);
    ("ALGOUSDT",   [0.42; 0.36; 0.30]);
    ("PENDLEUSDT", [5.9; 5.6; 5.4]);
    ("RNDRUSDT",   [9; 8; 7.2]);
    ("RAYUSDT",    [4.5; 4; 3.4]);
    ("JASMYUSDT",  [0.045]);
    ("GALAUSDT",   [0.50; 0.46; 0.40]);
    ("AVAXUSDT",   [47; 43]);
    ("KDAUSDT",    [1.31; 1.15; 1]);
    ("ICPUSDT",    [13.5; 13; 12.3]);
    ("DIAUSDT",    [0.88; 0.84; 0.80]);
    ("SUPERUSDT",  [1.6; 1.5]);
    ("RSRUSDT",    [0.01800; 0.01500; 0.012]);
    ("TAOUSDT",    [680; 655; 635]);
    ("ONDOUSDT",   [1.45; 1.28; 1.11]);
    ("ZILUSDT",    [0.285; 0.253; 0.2218]);
    ("LITUSDT",    [1.1; 1.0; 0.8]);
    ("TIAUSDT",    [7.65; 6.8])
  ]%float.

(** [1*time.Minute], in nanoseconds like every [time.Duration]. *)
Definition minute : Z := 60000000000.

(** A [*time.Timer] as the program can observe it.  [chanC] is the field
    [C]: [None] for the nil channel of a timer made by [time.AfterFunc],
    [Some b] for the one-slot channel of [time.NewTimer], holding a value
    iff [b].  [callbackAt] is the instant at which a function given to
    [time.AfterFunc] is still due to run. *)
Record Timer := {
  chanC : option bool;
  callbackAt : option Z
}.

(** [alertTimer := time.NewTimer(0); <-alertTimer.C]: the receive returns
    once the timer has fired and takes the value out of the channel. *)
Definition drainedTimer : Timer := {| chanC := Some false; callbackAt := None |}.

(** [time.AfterFunc(d, f)] called at instant [now]. *)
Definition AfterFunc (now d : Z) : Timer :=
  {| chanC := None; callbackAt := Some (now + d)%Z |}.

(** The package variable [bot] ([true] when it holds a handle, [false]
    when it is nil), the variables of [main] that the reader goroutine
    shares with the timer callback, and [sendCalls], the number of calls
    to [bot.Send] so far (it only selects the outcome of the next call). *)
Record State := {
  bot : bool;
  alertEmitted : bool;
  lastSymbol : string;
  alertTimer : Timer;
  sendCalls : nat
}.

(** [botTelegram()] stores what [NewBotAPI] returned, nil on an error;
    then [alertEmitted := false] and [var lastSymbol string]. *)
Definition initial (s : Startup) : State :=
  {| bot := negb (botErr s);
     alertEmitted := false; lastSymbol := "";
     alertTimer := drainedTimer; sendCalls := 0 |}.

(** [func() { alertEmitted = false }], run by the runtime when the
    deadline of the current [AfterFunc] timer has passed.  A frame is
    handled as one step: the callback takes effect between two frames. *)
Definition runCallback (now : Z) (st : State) : State :=
  match callbackAt (alertTimer st) with
  | Some deadline =>
      if (deadline <=? now)%Z then
        {| bot := bot st;
           alertEmitted := false;
           lastSymbol := lastSymbol st;
           alertTimer := {| chanC := chanC (alertTimer st); callbackAt := None |};
           sendCalls := sendCalls st |}
      else st
  | None => st
  end.

(** [select { case <-alertTimer.C: alertEmitted = false; default: }] *)
Definition pollTimer (st : State) : State :=
  match chanC (alertTimer st) with
  | Some true =>
      {| bot := bot st;
         alertEmitted := false;
         lastSymbol := lastSymbol st;
         alertTimer := {| chanC := Some false; callbackAt := callbackAt (alertTimer st) |};
         sendCalls := sendCalls st |}
  | _ => st
  end.

(** [!alertEmitted || lastSymbol != trade.Symbol] *)
Definition gateOpen (st : State) (symbol : string) : bool :=
  negb (alertEmitted st) || negb (String.eqb (lastSymbol st) symbol).

(** The assignments of the alert branch, made at instant [now]:
    [alertEmitted = true], [lastSymbol = trade.Symbol], the old timer
    stopped and [alertTimer = time.AfterFunc(1*time.Minute, ...)]. *)
Definition arm (now : Z) (symbol : string) (st : State) : State :=
  {| bot := bot st;
     alertEmitted := true;
     lastSymbol := symbol;
     alertTimer := AfterFunc now minute;
     sendCalls := sendCalls st |}.

Section Program.
Context `{GoLib}.

(** [sendMessage]: a call on a nil [bot] dereferences it and panics;
    otherwise the message is sent and an error is logged. *)
Definition sendMessage (message : TradeTelegramMessage) (st : State)
    : State * list Effect * Control :=
  if bot st then
    let ok := bot_Send (sendCalls st) message in
    ({| bot := bot st;
        alertEmitted := alertEmitted st;
        lastSymbol := lastSymbol st;
        alertTimer := alertTimer st;
        sendCalls := S (sendCalls st) |},
     BotSend message :: (if ok then [] else [LogSendError (ChatID message)]),
     Next)
  else (st, [], Panicked).

(** The loop of [sendTelegramChats] over a list of chat ids. *)
Fixpoint sendTo (ids : list Z) (trade : TradeMessage) (currentPrice target : float)
    (st : State) : State * list Effect * Control :=
  match ids with
  | [] => (st, [], Next)
  | chatID :: rest =>
      let message :=
        {| ChatID := chatID; MsgSymbol := Symbol trade;
           MsgPrice := currentPrice; MsgTarget := target |} in
      let '(st1, out1, c) := sendMessage message st in
      match c with
      | Next =>
          let '(st2, out2, c2) := sendTo rest trade currentPrice target st1 in
          (st2, (out1 ++ out2)%list, c2)
      | _ => (st1, out1, c)
      end
  end.

Definition sendTelegramChats := sendTo chatIds.

(** [for _, target := range targets { if isWithinThreshold(...) && (...) {...} }],
    entered at instant [now]. *)
Fixpoint rangeTargets (now : Z) (trade : TradeMessage) (currentPrice : float)
    (targets : list float) (st : State) : State * list Effect * Control :=
  match targets with
  | [] => (st, [], Next)
  | target :: rest =>
      if isWithinThreshold currentPrice target && gateOpen st (Symbol trade) then
        let '(st1, out1, c) :=
          sendTelegramChats trade currentPrice target (arm now (Symbol trade) st) in
        match c with
        | Next =>
            let '(st2, out2, c2) := rangeTargets now trade currentPrice rest st1 in
            (st2, (out1 ++ [LogAlert (Symbol trade) currentPrice target] ++ out2)%list, c2)
        | _ => (st1, out1, c)
        end
      else rangeTargets now trade currentPrice rest st
  end.

Definition evaluate (now : Z) (trade : TradeMessage) (currentPrice : float)
    (st : State) : State * list Effect * Control :=
  match priceTargets !! Symbol trade with
  | Some targets => rangeTargets now trade currentPrice targets st
  | None => (st, [LogPrice (Symbol trade) currentPrice], Next)
  end.

(** One pass through the body of the reader's loop, for a result that
    [ReadMessage] returns at instant [now]. *)
Definition iteration (now : Z) (r : ReadResult) (st : State)
    : State * list Effect * Control :=
  match r with
  | ReadErr closeErr => (st, [if closeErr then LogClosed else LogReadError], Return)
  | ReadOk message =>
      match json_Unmarshal message with
      | None => (st, [LogDecodeError], Panicked)
      | Some trade =>
          if String.eqb (Strings.TrimSpace (Event trade)) "trade" then
            match strconv_ParseFloat (Price trade) with
            | None => (st, [LogConvertError], Next)
            | Some currentPrice =>
                let '(st1, out, c) := evaluate now trade currentPrice st in
                match c with
                | Next => (pollTimer st1, out, Next)
                | _ => (st1, out, c)
                end
            end
          else (st, [], Next)
      end
  end.

(** One frame: the due callback first, then the loop body. *)
Definition step (now : Z) (r : ReadResult) (st : State)
    : State * list Effect * Control :=
  iteration now r (runCallback now st).

(** The reader goroutine on timed results of [ReadMessage]. *)
Fixpoint reader (rs : list (Z * ReadResult)) (st : State)
    : State * list Effect * Exit :=
  match rs with
  | [] => (st, [], Interrupted)
  | (now, r) :: rest =>
      let '(st1, out, c) := step now r st in
      match c with
      | Next => let '(st2, out', e) := reader rest st1 in (st2, (out ++ out')%list, e)
      | Return => (st1, out, StreamEnded)
      | Panicked => (st1, out, Crashed)
      end
  end.

Definition assets (s : Startup) : list string := map streamName (rangeOrder s).

Definition subscribeMessage (s : Startup) : SubscribeMessage :=
  {| method := "SUBSCRIBE"; params := assets s; id := requestID s |}.

(** [main]: start the bot, connect, subscribe, start the reader, wait. *)
Definition main (s : Startup) (rs : list (Z * ReadResult)) : list Effect * Exit :=
  let start := if botErr s then [LogBotError] else [] in
  let streams := Strings.Join (assets s) "/" in
  let dial := Dial (binanceWSSURL ++ "/" ++ streams) in
  if dialErr s then ((start ++ [dial; LogFatalDial])%list, Fatal)
  else if writeErr s then
    ((start ++ [dial; LogConnected; WriteJSON (subscribeMessage s); LogFatalSubscribe])%list,
     Fatal)
  else
    let '(_, out, e) := reader rs (initial s) in
    ((start ++ [dial; LogConnected; WriteJSON (subscribeMessage s); LogSubscribed (assets s)]
        ++ out ++ match e with Crashed => [] | _ => [LogShutdown] end)%list, e).

End Program.

End VariantA.

(** ** Sample frames and a library instance for running the programs *)

Module Sample.

(** JSON text written with apostrophes in place of double quotes. *)
Fixpoint json (s : string) : string :=
  match s with
  | EmptyString => EmptyString
  | String c r =>
      String (if Ascii.eqb c "'"%char then ascii_of_nat 34 else c) (json r)
  end.

(** The trade event
    [{'e':'trade','s':symbol,'p':price,'E':1,'t':1,'q':'1','T':1,'m':false,'M':false}]. *)
Definition frame (symbol price : string) : string :=
  json ("{'e':'trade','s':'" ++ symbol ++ "','p':'" ++ price
        ++ "','E':1,'t':1,'q':'1','T':1,'m':false,'M':false}").

Definition tick (symbol price : string) : TradeMessage :=
  {| Event := "trade"; EventTime := 1; Symbol := symbol; TradeID := 1;
     Price := price; Quantity := "1"; Timestamp := 1;
     IsMarketMaker := false; Ignore := false |}.

(** The answer to a subscription request, [{'result':null,'id':'1'}]:
    it decodes to a [TradeMessage] with every field at its zero value. *)
Definition ack : string := json "{'result':null,'id':'1'}".

Definition zeroMessage : TradeMessage :=
  {| Event := ""; EventTime := 0; Symbol := ""; TradeID := 0;
     Price := ""; Quantity := ""; Timestamp := 0;
     IsMarketMaker := false; Ignore := false |}.

(** A body that is not JSON. *)
Definition garbage : string := "not json".

Definition symbols : list string := ["SOLUSDT"; "LINKUSDT"; "DOGEUSDT"].
Definition prices : list string := ["205.00"; "208.9"; "21.7"; "-1"; "NaN"; "abc"].

(** [json.Unmarshal] on the bodies above: the frames built by [frame] from
    [symbols] and [prices], and [ack].  Every other body is answered with
    an error, as [garbage] is by Go. *)
Definition decodeTable : list (string * TradeMessage) :=
  (ack, zeroMessage)
    :: flat_map (fun s => map (fun p => (frame s p, tick s p)) prices) symbols.

Fixpoint assoc {A} (k : string) (l : list (string * A)) : option A :=
  match l with
  | [] => None
  | (k', a) :: rest => if String.eqb k k' then Some a else assoc k rest
  end.

(** [strconv.ParseFloat(s, 64)] on the strings of [prices]: the decimal
    literals give the nearest binary64 value, ["NaN"] is accepted, ["abc"]
    is a syntax error. *)
Definition parseTable : list (string * float) :=
  [("205.00", 205); ("208.9", 208.9); ("21.7", 21.7); ("-1", -1); ("NaN", nan)]%float.

(** The second call to [bot.Send] of a run fails, the others succeed. *)
#[export] Instance lib : GoLib :=
  {| json_Unmarshal := fun message => assoc message decodeTable;
     strconv_ParseFloat := fun s => assoc s parseTable;
     bot_Send := fun n _ => negb (n =? 1)%nat |}.

Definition startupA : Startup :=
  {| rangeOrder := (map_to_list VariantA.priceTargets).*1;
     botErr := false; dialErr := false;
     requestID := "6ba7b810-9dad-41d1-80b4-00c04fd430c8"; writeErr := false |}.


End Sample.

(** ** Notions used to state the properties *)

Definition lowerBound (target : float) : float := (target * 0.99)%float.
Definition upperBound (target : float) : float := (target * 1.01)%float.

(** The targets of a tick that pass the threshold test, in list order. *)
Definition candidates (price : float) (targets : list float) : list float :=
  List.filter (isWithinThreshold price) targets.

(** Two bands that do not meet. *)
Definition disjointBands (a b : float) : bool :=
  (upperBound a <? lowerBound b)%float || (upperBound b <? lowerBound a)%float.

Fixpoint pairwiseDisjoint (targets : list float) : bool :=
  match targets with
  | [] => true
  | a :: rest => forallb (disjointBands a) rest && pairwiseDisjoint rest
  end.

Definition nonEmptyBand (target : float) : bool :=
  (lowerBound target <=? upperBound target)%float.

(** What a trace holds of each kind: messages given to [bot.Send], alert
    lines, subscription messages written, URLs dialled. *)
Definition sent (out : list Effect) : list TradeTelegramMessage :=
  flat_map (fun e => match e with BotSend m => [m] | _ => [] end) out.

Definition alerts (out : list Effect) : list (string * float * float) :=
  flat_map (fun e => match e with LogAlert s p t => [(s, p, t)] | _ => [] end) out.



(** The message [sendTelegramChats] builds for one chat. *)
Definition notification (trade : TradeMessage) (currentPrice target : float)
    (chatID : Z) : TradeTelegramMessage :=
  {| ChatID := chatID; MsgSymbol := Symbol trade;
     MsgPrice := currentPrice; MsgTarget := target |}.

(** A body that decodes to a trade event whose price string parses. *)
Definition decodes `{GoLib} (message : string) (trade : TradeMessage)
    (price : float) : Prop :=
  json_Unmarshal message = Some trade
  /\ String.eqb (Strings.TrimSpace (Event trade)) "trade" = true
  /\ strconv_ParseFloat (Price trade) = Some price.

(** The tick is within the threshold of a target configured for its symbol. *)
Definition matches (tbl : gmap string (list float)) (trade : TradeMessage)
    (price : float) : bool :=
  match tbl !! Symbol trade with
  | Some targets => existsb (isWithinThreshold price) targets
  | None => false
  end.

(** A price that is neither negative, nor infinite, nor a NaN. *)
Definition nonNegativeFinite (price : float) : bool :=
  (0 <=? price)%float && (price <? infinity)%float.

(** Of two loop passes, one panics and the other goes on to the next frame. *)
Definition onlyOneCrashes (a b : Control) : Prop :=
  (a = Panicked /\ b = Next) \/ (a = Next /\ b = Panicked).

(** The trace of [bot.Send] calls number [n], [n+1], ... on [messages]. *)
Fixpoint sendLog `{GoLib} (n : nat) (messages : list TradeTelegramMessage)
    : list Effect :=
  match messages with
  | [] => []
  | m :: rest =>
      (BotSend m :: (if bot_Send n m then [] else [LogSendError (ChatID m)])
         ++ sendLog (S n) rest)%list
  end.

(** The state after [n] more calls to [bot.Send]. *)
Definition addSends (n : nat) (st : VariantA.State) : VariantA.State :=
  {| VariantA.bot := VariantA.bot st;
     VariantA.alertEmitted := VariantA.alertEmitted st;
     VariantA.lastSymbol := VariantA.lastSymbol st;
     VariantA.alertTimer := VariantA.alertTimer st;
     VariantA.sendCalls := n + VariantA.sendCalls st |}.

(** The messages one alert line stands for: one per chat id, in order. *)
Definition fanout (a : string * float * float) : list TradeTelegramMessage :=
  map (fun chatID =>
         {| ChatID := chatID; MsgSymbol := a.1.1; MsgPrice := a.1.2; MsgTarget := a.2 |})
      VariantA.chatIds.

(** A result of [ReadMessage] that is a tick matching a target of [tbl]. *)
Definition frameMatches `{GoLib} (tbl : gmap string (list float))
    (r : ReadResult) : Prop :=
  exists message trade price,
    r = ReadOk message /\ decodes message trade price
    /\ matches tbl trade price = true.

(** The channel of the current timer holds no value. *)
Definition channelEmpty (st : VariantA.State) : Prop :=
  VariantA.chanC (VariantA.alertTimer st) <> Some true.

(** The symbol of the last alert line of a trace. *)
Definition lastAlerted (out : list Effect) : option string :=
  match last (alerts out) with
  | Some (s, _, _) => Some s
  | None => None
  end.

(** What a pass does to the recorded symbol: it becomes the symbol of the
    last alert of the pass, and without an alert it stays, the flag being up
    afterwards only if it was up before. *)
Definition recorded (st st' : VariantA.State) (out : list Effect) : Prop :=
  VariantA.bot st' = true
  /\ match lastAlerted out with
     | Some symbol => VariantA.lastSymbol st' = symbol
     | None =>
         VariantA.lastSymbol st' = VariantA.lastSymbol st
         /\ (VariantA.alertEmitted st' = true -> VariantA.alertEmitted st = true)
     end.


(** ** Notions used to state the properties of whole runs *)

(** An alert line that the table accounts for: its symbol is a key, its
    target is one of the key's targets, its price is within the threshold of
    that target. *)
Definition justified (tbl : gmap string (list float))
    (a : string * float * float) : Prop :=
  exists targets : list float,
    tbl !! a.1.1 = Some targets /\ a.2 ∈ targets
    /\ isWithinThreshold a.1.2 a.2 = true.

(** A body that decodes to a trade event with the symbol and the parsed
    price of the alert line. *)
Definition reports `{GoLib} (message : string) (a : string * float * float) : Prop :=
  exists trade : TradeMessage, decodes message trade a.1.2 /\ Symbol trade = a.1.1.

(** The alerts of a run of variant A's reader, each with the instant of the
    frame that raised it. *)
Fixpoint alertLog `{GoLib} (rs : list (Z * ReadResult)) (st : VariantA.State)
    : list (Z * string) :=
  match rs with
  | [] => []
  | (now, r) :: rest =>
      let '(st1, out, c) := VariantA.step now r st in
      (map (fun a => (now, a.1.1)) (alerts out)
         ++ match c with Next => alertLog rest st1 | _ => [] end)%list
  end.

(** Successive alerts carry different symbols or are a minute apart. *)
Fixpoint spaced (log : list (Z * string)) : Prop :=
  match log with
  | a :: (b :: _) as rest =>
      (a.2 <> b.2 \/ (a.1 + VariantA.minute <= b.1)%Z) /\ spaced rest
  | _ => True
  end.

(** A body that decodes to something that is not a trade event. *)
Definition notTrade `{GoLib} (r : ReadResult) : Prop :=
  exists message trade,
    r = ReadOk message /\ json_Unmarshal message = Some trade
    /\ String.eqb (Strings.TrimSpace (Event trade)) "trade" = false.



(** A target that is not negative and whose band does not reach infinity. *)
Definition soundTarget (t : float) : bool :=
  (0 <=? t)%float && negb (isWithinThreshold infinity t).

(** The state between two alerts of a run whose frames arrive in order:
    [prev] is the last alert with its instant, [lo] an instant not later
    than the next frame.  While the flag is up the state records that alert
    and its deadline; once it is down the deadline has passed. *)
Definition cooling (prev : option (Z * string)) (lo : Z) (st : VariantA.State) : Prop :=
  channelEmpty st
  /\ match prev with
     | None => VariantA.alertEmitted st = false
     | Some a =>
         if VariantA.alertEmitted st
         then VariantA.lastSymbol st = a.2
              /\ VariantA.callbackAt (VariantA.alertTimer st)
                 = Some (a.1 + VariantA.minute)%Z
         else (a.1 + VariantA.minute <= lo)%Z
     end.

(** While the flag is up, a callback is due a minute after an instant
    that satisfies [P]. *)
Definition pending (P : Z -> Prop) (st : VariantA.State) : Prop :=
  VariantA.alertEmitted st = true ->
  exists t : Z,
    P t /\ VariantA.callbackAt (VariantA.alertTimer st) = Some (t + VariantA.minute)%Z.

(** * Properties *)

(** ** The order on binary64 values *)

(** [<=?] and [<?] on [float] are specified through [SFcompare] on the
    decoded values; the facts below are read off that comparison. *)
Module FloatOrder.

Ltac split_compare :=
  repeat match goal with
    | H : context [Z.compare ?a ?b] |- _ => destruct (Z.compare_spec a b)
    | |- context [Z.compare ?a ?b] => destruct (Z.compare_spec a b)
    | H : context [Pos.compare_cont Eq ?a ?b] |- _ =>
        change (Pos.compare_cont Eq a b) with (Pos.compare a b) in *;
        destruct (Pos.compare_spec a b)
    | |- context [Pos.compare_cont Eq ?a ?b] =>
        change (Pos.compare_cont Eq a b) with (Pos.compare a b) in *;
        destruct (Pos.compare_spec a b)
    end.

Ltac by_cases x y :=
  destruct x as [[]| [] | | [] ? ?], y as [[]| [] | | [] ? ?]; simpl;
  try discriminate; try reflexivity.

(** Both sides of a comparison that holds are comparable to themselves
    (neither is a NaN). *)
Lemma SFleb_refl (x y : spec_float) :
  SFleb x y = true -> SFleb x x = true /\ SFleb y y = true.
Proof.
  unfold SFleb. by_cases x y; intros _; split; try reflexivity;
    rewrite ?Z.compare_refl;
    change (Pos.compare_cont Eq ?a ?a) with (Pos.compare a a);
    rewrite ?Pos.compare_refl; reflexivity.
Qed.

Lemma SFltb_SFleb (x y : spec_float) : SFltb x y = true -> SFleb y x = false.
Proof.
  unfold SFltb, SFleb. by_cases x y;
    split_compare; simpl; try discriminate; try reflexivity; lia.
Qed.

Lemma SFleb_trans (x y z : spec_float) :
  SFleb x y = true -> SFleb y z = true -> SFleb x z = true.
Proof.
  unfold SFleb. by_cases x y; destruct z as [[]| [] | | [] ? ?]; simpl;
    try discriminate; try reflexivity;
    split_compare; simpl; try discriminate; try reflexivity; lia.
Qed.

Lemma leb_refl (a b : float) :
  (a <=? b)%float = true -> (a <=? a)%float = true /\ (b <=? b)%float = true.
Proof. rewrite !leb_spec. apply SFleb_refl. Qed.

Lemma ltb_leb (a b : float) : (a <? b)%float = true -> (b <=? a)%float = false.
Proof. rewrite ltb_spec, leb_spec. apply SFltb_SFleb. Qed.

Lemma leb_trans (a b c : float) :
  (a <=? b)%float = true -> (b <=? c)%float = true -> (a <=? c)%float = true.
Proof. rewrite !leb_spec. apply SFleb_trans. Qed.

End FloatOrder.

(** ** The tolerance band *)

Lemma isWithinThreshold_iff (price target : float) :
  isWithinThreshold price target = true
  <-> (lowerBound target <=? price)%float = true
      /\ (price <=? upperBound target)%float = true.
Proof. unfold isWithinThreshold, lowerBound, upperBound. apply andb_true_iff. Qed.

Lemma band_ends_inside (target : float) :
  (lowerBound target <=? upperBound target)%float = true ->
  isWithinThreshold (lowerBound target) target = true
  /\ isWithinThreshold (upperBound target) target = true.
Proof.
  intros Hband. destruct (FloatOrder.leb_refl _ _ Hband) as [Hlo Hhi].
  split; apply isWithinThreshold_iff; auto.
Qed.

Lemma outside_band (price target : float) :
  (price <? lowerBound target)%float = true
  \/ (upperBound target <? price)%float = true ->
  isWithinThreshold price target = false.
Proof.
  intros Hout. apply not_true_is_false. intros Hin.
  apply isWithinThreshold_iff in Hin as [Hlo Hhi].
  destruct Hout as [Hout | Hout]; apply FloatOrder.ltb_leb in Hout; congruence.
Qed.

(** Disjoint bands hold no common price. *)
Lemma disjointBands_exclusive (price a b : float) :
  disjointBands a b = true ->
  isWithinThreshold price a = true -> isWithinThreshold price b = false.
Proof.
  intros Hdis Ha. apply not_true_is_false. intros Hb.
  apply isWithinThreshold_iff in Ha as [Halo Hahi].
  apply isWithinThreshold_iff in Hb as [Hblo Hbhi].
  apply orb_true_iff in Hdis as [Hlt | Hlt]; apply FloatOrder.ltb_leb in Hlt.
  - pose proof (FloatOrder.leb_trans _ _ _ Hblo Hahi). congruence.
  - pose proof (FloatOrder.leb_trans _ _ _ Halo Hbhi). congruence.
Qed.

Lemma pairwiseDisjoint_candidates (price : float) (targets : list float) :
  pairwiseDisjoint targets = true -> (length (candidates price targets) <= 1)%nat.
Proof.
  induction targets as [|a rest IH]; simpl; [lia|].
  intros [Hall Hrest]%andb_true_iff.
  destruct (isWithinThreshold price a) eqn:Ha; [|auto].
  replace (candidates price rest) with (@nil float); [simpl; lia|].
  symmetry. clear IH Hrest. unfold candidates.
  induction rest as [|b rest IH]; simpl; [reflexivity|].
  simpl in Hall. apply andb_true_iff in Hall as [Hab Hall].
  rewrite (disjointBands_exclusive price a b Hab Ha). auto.
Qed.

(** A property checked on every target of a table holds at every lookup. *)
Lemma table_forall (tbl : gmap string (list float)) (P : list float -> bool) :
  forallb (fun kv => P kv.2) (map_to_list tbl) = true ->
  forall s targets, tbl !! s = Some targets -> P targets = true.
Proof.
  intros Hall s targets Hs.
  rewrite forallb_forall in Hall.
  apply (Hall (s, targets)), list_elem_of_In, elem_of_map_to_list, Hs.
Qed.

Lemma configured_bands (s : string) (targets : list float) :
  VariantA.priceTargets !! s = Some targets
  \/ VariantB.priceTargets !! s = Some targets ->
  forallb nonEmptyBand targets = true /\ pairwiseDisjoint targets = true.
Proof.
  intros [Hs | Hs].
  - split; revert s targets Hs; apply table_forall; vm_compute; reflexivity.
  - split; revert s targets Hs; apply table_forall; vm_compute; reflexivity.
Qed.

(** C3. For every price and target, [isWithinThreshold] answers [true]
    exactly when the price lies between the two bounds the function
    computes, [target * 0.99] and [target * 1.01], ends included: it is
    [true] at each bound whenever the band is not empty, which is the case
    for every target of both tables, and [false] at every price strictly
    below the lower bound or strictly above the upper one. *)
Theorem isWithinThreshold_inclusive_band :
  (forall P T : float,
      isWithinThreshold P T = true
      <-> (T * 0.99 <=? P)%float = true /\ (P <=? T * 1.01)%float = true)
  /\ (forall T : float,
         (T * 0.99 <=? T * 1.01)%float = true ->
         isWithinThreshold (T * 0.99) T = true
         /\ isWithinThreshold (T * 1.01) T = true)
  /\ (forall (s : string) (targets : list float) (T : float),
         VariantA.priceTargets !! s = Some targets
         \/ VariantB.priceTargets !! s = Some targets ->
         T ∈ targets ->
         isWithinThreshold (T * 0.99) T = true
         /\ isWithinThreshold (T * 1.01) T = true)
  /\ (forall P T : float,
         (P <? T * 0.99)%float = true \/ (T * 1.01 <? P)%float = true ->
         isWithinThreshold P T = false).
Proof.
  split; [exact isWithinThreshold_iff|].
  split; [exact band_ends_inside|].
  split; [|exact outside_band].
  intros s targets T Hs HT.
  apply band_ends_inside.
  destruct (configured_bands s targets Hs) as [Hall _].
  rewrite forallb_forall in Hall. apply Hall, list_elem_of_In, HT.
Qed.

(** The band of target 210 on binary64 values: its two ends are inside, the
    neighbouring values just outside are not. *)
Example band_210 :
  lowerBound 210 = 207.9%float
  /\ isWithinThreshold (lowerBound 210) 210 = true
  /\ isWithinThreshold (next_down (lowerBound 210)) 210 = false
  /\ isWithinThreshold (upperBound 210) 210 = true
  /\ isWithinThreshold (next_up (upperBound 210)) 210 = false
  /\ isWithinThreshold 205 210 = false
  /\ isWithinThreshold 208.9 210 = true.
Proof. vm_compute. repeat split. Qed.

(** With a negative target the two bounds cross and no price is inside. *)
Example band_negative_target :
  nonEmptyBand (-1) = false /\ isWithinThreshold (lowerBound (-1)) (-1) = false.
Proof. vm_compute. split; reflexivity. Qed.

(** ** Frames that are not evaluated: decode and parse failures *)

Section Frames.
Context `{GoLib}.

Lemma iterationB_tick (message : string) (trade : TradeMessage) (price : float) :
  decodes message trade price ->
  VariantB.iteration (ReadOk message) = (VariantB.evaluate trade price, Next).
Proof.
  intros (Hjson & Hevent & Hprice). unfold VariantB.iteration.
  rewrite Hjson, Hevent, Hprice. reflexivity.
Qed.

Lemma iterationA_tick (now : Z) (message : string) (trade : TradeMessage)
    (price : float) (st : VariantA.State) :
  decodes message trade price ->
  VariantA.iteration now (ReadOk message) st =
    let '(st1, out, c) := VariantA.evaluate now trade price st in
    match c with
    | Next => (VariantA.pollTimer st1, out, Next)
    | _ => (st1, out, c)
    end.
Proof.
  intros (Hjson & Hevent & Hprice). unfold VariantA.iteration.
  rewrite Hjson, Hevent, Hprice. reflexivity.
Qed.

Lemma readerB_cons (r : ReadResult) (rest : list ReadResult) :
  VariantB.reader (r :: rest) =
    let '(out, c) := VariantB.iteration r in
    match c with
    | Next => let '(out', e) := VariantB.reader rest in ((out ++ out')%list, e)
    | Return => (out, StreamEnded)
    | Panicked => (out, Crashed)
    end.
Proof. reflexivity. Qed.

Lemma readerA_cons (now : Z) (r : ReadResult) (rest : list (Z * ReadResult))
    (st : VariantA.State) :
  VariantA.reader ((now, r) :: rest) st =
    let '(st1, out, c) := VariantA.step now r st in
    match c with
    | Next =>
        let '(st2, out', e) := VariantA.reader rest st1 in (st2, (out ++ out')%list, e)
    | Return => (st1, out, StreamEnded)
    | Panicked => (st1, out, Crashed)
    end.
Proof. reflexivity. Qed.

(** C1, as amended. A body that [json.Unmarshal] rejects is logged and then
    panics in both variants: the pass ends in a panic, the reader stops
    with the process crashed, and no later frame is read. *)
Theorem decode_failure_panics_in_both_variants
    (message : string) (now : Z) (st : VariantA.State)
    (restB : list ReadResult) (restA : list (Z * ReadResult)) :
  json_Unmarshal message = None ->
  VariantB.iteration (ReadOk message) = ([LogDecodeError], Panicked)
  /\ VariantB.reader (ReadOk message :: restB) = ([LogDecodeError], Crashed)
  /\ VariantA.step now (ReadOk message) st
     = (VariantA.runCallback now st, [LogDecodeError], Panicked)
  /\ VariantA.reader ((now, ReadOk message) :: restA) st
     = (VariantA.runCallback now st, [LogDecodeError], Crashed).
Proof.
  intros Hjson.
  assert (HB : VariantB.iteration (ReadOk message) = ([LogDecodeError], Panicked))
    by (unfold VariantB.iteration; rewrite Hjson; reflexivity).
  assert (HA : VariantA.step now (ReadOk message) st
               = (VariantA.runCallback now st, [LogDecodeError], Panicked))
    by (unfold VariantA.step, VariantA.iteration; rewrite Hjson; reflexivity).
  repeat split; trivial.
  - rewrite readerB_cons, HB. reflexivity.
  - rewrite readerA_cons, HA. reflexivity.
Qed.

(** C5, as amended. A trade event reaches the threshold evaluation with
    exactly the value [strconv.ParseFloat] returned for its price string,
    whatever its sign and whether finite or not; when the parse fails the
    pass logs the failure and ends before any evaluation. *)
Theorem evaluated_price_is_the_parse_result
    (message : string) (trade : TradeMessage) (now : Z) (st : VariantA.State) :
  json_Unmarshal message = Some trade ->
  String.eqb (Strings.TrimSpace (Event trade)) "trade" = true ->
  match strconv_ParseFloat (Price trade) with
  | Some price =>
      VariantB.iteration (ReadOk message) = (VariantB.evaluate trade price, Next)
      /\ VariantA.iteration now (ReadOk message) st =
           (let '(st1, out, c) := VariantA.evaluate now trade price st in
            match c with
            | Next => (VariantA.pollTimer st1, out, Next)
            | _ => (st1, out, c)
            end)
  | None =>
      VariantB.iteration (ReadOk message) = ([LogConvertError], Next)
      /\ VariantA.iteration now (ReadOk message) st = (st, [LogConvertError], Next)
  end.
Proof.
  intros Hjson Hevent.
  destruct (strconv_ParseFloat (Price trade)) as [price|] eqn:Hprice.
  - split; [apply iterationB_tick | apply iterationA_tick]; repeat split; trivial.
  - unfold VariantB.iteration, VariantA.iteration.
    rewrite Hjson, Hevent, Hprice. split; reflexivity.
Qed.

(** C6. In both variants a trade event whose price string does not parse
    is logged and skipped: the pass changes nothing else and the reader goes
    on with the frames that follow. *)
Theorem malformed_price_skips_one_frame
    (message : string) (trade : TradeMessage) (now : Z) (st : VariantA.State)
    (restB : list ReadResult) (restA : list (Z * ReadResult)) :
  json_Unmarshal message = Some trade ->
  String.eqb (Strings.TrimSpace (Event trade)) "trade" = true ->
  strconv_ParseFloat (Price trade) = None ->
  VariantB.iteration (ReadOk message) = ([LogConvertError], Next)
  /\ VariantB.reader (ReadOk message :: restB)
     = (LogConvertError :: (VariantB.reader restB).1, (VariantB.reader restB).2)
  /\ VariantA.step now (ReadOk message) st
     = (VariantA.runCallback now st, [LogConvertError], Next)
  /\ VariantA.reader ((now, ReadOk message) :: restA) st
     = (let '(st2, out, e) := VariantA.reader restA (VariantA.runCallback now st) in
        (st2, LogConvertError :: out, e)).
Proof.
  intros Hjson Hevent Hprice.
  assert (HB : VariantB.iteration (ReadOk message) = ([LogConvertError], Next))
    by (unfold VariantB.iteration; rewrite Hjson, Hevent, Hprice; reflexivity).
  assert (HA : VariantA.step now (ReadOk message) st
               = (VariantA.runCallback now st, [LogConvertError], Next))
    by (unfold VariantA.step, VariantA.iteration;
        rewrite Hjson, Hevent, Hprice; reflexivity).
  repeat split; trivial.
  - rewrite readerB_cons, HB. destruct (VariantB.reader restB). reflexivity.
  - rewrite readerA_cons, HA.
    destruct (VariantA.reader restA (VariantA.runCallback now st)) as [[? ?] ?].
    reflexivity.
Qed.

End Frames.

(** ** Threshold evaluation of a tick *)

Section Evaluation.
Context `{GoLib}.

Lemma alerts_app (a b : list Effect) : alerts (a ++ b) = (alerts a ++ alerts b)%list.
Proof. apply flat_map_app. Qed.

Lemma sent_app (a b : list Effect) : sent (a ++ b) = (sent a ++ sent b)%list.
Proof. apply flat_map_app. Qed.

Lemma sent_sendLog (n : nat) (messages : list TradeTelegramMessage) :
  sent (sendLog n messages) = messages.
Proof.
  revert n. induction messages as [|m rest IH]; intros n; simpl; [reflexivity|].
  f_equal. rewrite sent_app, IH. destruct (bot_Send n m); reflexivity.
Qed.

Lemma alerts_sendLog (n : nat) (messages : list TradeTelegramMessage) :
  alerts (sendLog n messages) = [].
Proof.
  revert n. induction messages as [|m rest IH]; intros n; simpl; [reflexivity|].
  rewrite alerts_app, IH. destruct (bot_Send n m); reflexivity.
Qed.

(** Variant B logs one alert line per matching target, in list order. *)
Lemma rangeTargetsB_candidates (trade : TradeMessage) (price : float)
    (targets : list float) :
  VariantB.rangeTargets trade price targets
  = map (LogAlert (Symbol trade) price) (candidates price targets).
Proof.
  induction targets as [|t rest IH]; simpl; [reflexivity|].
  rewrite IH. destruct (isWithinThreshold price t); reflexivity.
Qed.

Lemma alerts_map_LogAlert (s : string) (price : float) (targets : list float) :
  alerts (map (LogAlert s price) targets) = map (fun t => (s, price, t)) targets.
Proof. induction targets as [|t rest IH]; simpl; [|rewrite <- IH]; reflexivity. Qed.

(** [sendTelegramChats] with a usable [bot]: one call per chat id, in order,
    whatever the calls answer. *)
Lemma sendTo_spec (ids : list Z) (trade : TradeMessage) (price target : float)
    (st : VariantA.State) :
  VariantA.bot st = true ->
  VariantA.sendTo ids trade price target st
  = (addSends (length ids) st,
     sendLog (VariantA.sendCalls st) (map (notification trade price target) ids),
     Next).
Proof.
  revert st. induction ids as [|chat rest IH]; intros st Hbot.
  - destruct st; reflexivity.
  - destruct st as [b emitted symbol timer calls]. simpl in Hbot. subst b.
    cbn [VariantA.sendTo]. unfold VariantA.sendMessage. cbn [VariantA.bot].
    rewrite IH by reflexivity. unfold addSends. simpl.
    replace (length rest + S calls) with (S (length rest + calls)) by lia.
    reflexivity.
Qed.

(** With a nil [bot] the first call panics. *)
Lemma sendTo_nil_bot (chat : Z) (rest : list Z) (trade : TradeMessage)
    (price target : float) (st : VariantA.State) :
  VariantA.bot st = false ->
  VariantA.sendTo (chat :: rest) trade price target st = (st, [], Panicked).
Proof.
  intros Hbot. cbn [VariantA.sendTo]. unfold VariantA.sendMessage.
  rewrite Hbot. reflexivity.
Qed.

(** While the gate is shut the loop over the targets does nothing. *)
Lemma rangeTargetsA_shut (now : Z) (trade : TradeMessage) (price : float)
    (targets : list float) (st : VariantA.State) :
  VariantA.gateOpen st (Symbol trade) = false ->
  VariantA.rangeTargets now trade price targets st = (st, [], Next).
Proof.
  intros Hgate. induction targets as [|t rest IH]; simpl; [reflexivity|].
  rewrite Hgate, andb_false_r. exact IH.
Qed.

Lemma gate_shut_after_alert (n : nat) (now : Z) (symbol : string)
    (st : VariantA.State) :
  VariantA.gateOpen (addSends n (VariantA.arm now symbol st)) symbol = false.
Proof. unfold VariantA.gateOpen; simpl. rewrite String.eqb_refl. reflexivity. Qed.

(** The loop over the targets in variant A: the first matching target is
    alerted when the gate is open on entry, and the alert shuts the gate for
    the targets that follow. *)
Lemma rangeTargetsA_spec (now : Z) (trade : TradeMessage) (price : float)
    (targets : list float) (st : VariantA.State) :
  VariantA.bot st = true ->
  VariantA.rangeTargets now trade price targets st =
    match (if VariantA.gateOpen st (Symbol trade)
           then candidates price targets else []) with
    | [] => (st, [], Next)
    | target :: _ =>
        (addSends (length VariantA.chatIds) (VariantA.arm now (Symbol trade) st),
         (sendLog (VariantA.sendCalls st)
            (map (notification trade price target) VariantA.chatIds)
          ++ [LogAlert (Symbol trade) price target])%list,
         Next)
    end.
Proof.
  intros Hbot.
  destruct (VariantA.gateOpen st (Symbol trade)) eqn:Hgate;
    [|apply rangeTargetsA_shut, Hgate].
  induction targets as [|t rest IH]; [reflexivity|].
  cbn [VariantA.rangeTargets candidates List.filter].
  destruct (isWithinThreshold price t) eqn:Ht; rewrite Hgate; cbn [andb]; [|exact IH].
  unfold VariantA.sendTelegramChats. rewrite sendTo_spec by exact Hbot.
  rewrite rangeTargetsA_shut by apply gate_shut_after_alert.
  cbn [VariantA.arm VariantA.sendCalls]. rewrite app_nil_r. reflexivity.
Qed.

(** C7. In both variants a trade event whose symbol is not a key of the
    table raises no alert and sends nothing, whatever its price: the pass
    logs the current price and nothing else, and in variant A the alert
    variables stay as they were. *)
Theorem unknown_symbol_only_logs_price
    (message : string) (trade : TradeMessage) (price : float)
    (now : Z) (st : VariantA.State) :
  decodes message trade price ->
  (VariantB.priceTargets !! Symbol trade = None ->
   VariantB.iteration (ReadOk message) = ([LogPrice (Symbol trade) price], Next))
  /\ (VariantA.priceTargets !! Symbol trade = None ->
      VariantA.iteration now (ReadOk message) st
      = (VariantA.pollTimer st, [LogPrice (Symbol trade) price], Next)
      /\ (channelEmpty st -> VariantA.pollTimer st = st)).
Proof.
  intros Hdec. split; intros Hnone.
  - rewrite (iterationB_tick _ _ _ Hdec). unfold VariantB.evaluate.
    rewrite Hnone. reflexivity.
  - split.
    + rewrite (iterationA_tick _ _ _ _ _ Hdec). unfold VariantA.evaluate.
      rewrite Hnone. reflexivity.
    + unfold channelEmpty, VariantA.pollTimer.
      destruct (VariantA.chanC (VariantA.alertTimer st)) as [[]|]; congruence.
Qed.

Lemma evaluateA_spec (now : Z) (trade : TradeMessage) (price : float)
    (st : VariantA.State) :
  VariantA.bot st = true ->
  VariantA.evaluate now trade price st =
    match VariantA.priceTargets !! Symbol trade with
    | None => (st, [LogPrice (Symbol trade) price], Next)
    | Some targets =>
        match (if VariantA.gateOpen st (Symbol trade)
               then candidates price targets else []) with
        | [] => (st, [], Next)
        | target :: _ =>
            (addSends (length VariantA.chatIds) (VariantA.arm now (Symbol trade) st),
             (sendLog (VariantA.sendCalls st)
                (map (notification trade price target) VariantA.chatIds)
              ++ [LogAlert (Symbol trade) price target])%list,
             Next)
        end
    end.
Proof.
  intros Hbot. unfold VariantA.evaluate.
  destruct (VariantA.priceTargets !! Symbol trade); [|reflexivity].
  apply rangeTargetsA_spec, Hbot.
Qed.

(** C2. A tick whose symbol has configured targets raises one alert per
    target that passes the threshold test.  Variant B logs an alert line for
    each of the K matching targets, in list order.  Variant A hands the same
    K candidates to its de-duplication gate: when the gate is open for the
    symbol each of them is alerted and sent to every chat, and there is at
    most one, because the bands of one symbol's targets never meet. *)
Theorem matching_targets_raise_alerts :
  (forall (trade : TradeMessage) (price : float) (targets : list float),
      VariantB.priceTargets !! Symbol trade = Some targets ->
      VariantB.evaluate trade price
      = map (LogAlert (Symbol trade) price) (candidates price targets)
      /\ length (alerts (VariantB.evaluate trade price))
         = length (candidates price targets))
  /\ (forall (now : Z) (trade : TradeMessage) (price : float)
        (targets : list float) (st : VariantA.State),
         VariantA.priceTargets !! Symbol trade = Some targets ->
         VariantA.bot st = true ->
         let out := (VariantA.evaluate now trade price st).1.2 in
         let raised :=
           if VariantA.gateOpen st (Symbol trade)
           then candidates price targets else [] in
         alerts out = map (fun t => (Symbol trade, price, t)) raised
         /\ sent out
            = flat_map (fun t => map (notification trade price t) VariantA.chatIds) raised
         /\ (length (candidates price targets) <= 1)%nat).
Proof.
  split.
  - intros trade price targets Hs. unfold VariantB.evaluate. rewrite Hs.
    rewrite rangeTargetsB_candidates, alerts_map_LogAlert, length_map. auto.
  - intros now trade price targets st Hs Hbot out raised.
    assert (Hone : (length (candidates price targets) <= 1)%nat).
    { apply pairwiseDisjoint_candidates.
      apply (configured_bands (Symbol trade)). left. exact Hs. }
    subst out raised. rewrite evaluateA_spec by exact Hbot. rewrite Hs.
    destruct (VariantA.gateOpen st (Symbol trade)); [|auto].
    destruct (candidates price targets) as [|t [|t' rest]]; [auto| |simpl in Hone; lia].
    cbn [fst snd]. rewrite alerts_app, sent_app, alerts_sendLog, sent_sendLog.
    cbn. auto.
Qed.

(** Every alert line of a pass stands for one message per chat id. *)
Lemma stepA_fanout (now : Z) (r : ReadResult) (st : VariantA.State) :
  VariantA.bot st = true ->
  VariantA.bot (VariantA.step now r st).1.1 = true
  /\ sent (VariantA.step now r st).1.2
     = flat_map fanout (alerts (VariantA.step now r st).1.2).
Proof.
  intros Hbot.
  assert (Hbot0 : VariantA.bot (VariantA.runCallback now st) = true).
  { unfold VariantA.runCallback.
    destruct (VariantA.callbackAt (VariantA.alertTimer st)) as [d|]; [|exact Hbot].
    destruct (d <=? now)%Z; exact Hbot. }
  unfold VariantA.step. generalize dependent (VariantA.runCallback now st).
  clear st Hbot. intros st Hbot. unfold VariantA.iteration.
  destruct r as [closeErr|message]; [destruct closeErr; cbn; auto|].
  destruct (json_Unmarshal message) as [trade|]; [|cbn; auto].
  destruct (String.eqb _ _); [|cbn; auto].
  destruct (strconv_ParseFloat (Price trade)) as [price|]; [|cbn; auto].
  rewrite evaluateA_spec by exact Hbot.
  assert (Hpoll : forall st', VariantA.bot (VariantA.pollTimer st') = VariantA.bot st').
  { intros st'. unfold VariantA.pollTimer.
    destruct (VariantA.chanC (VariantA.alertTimer st')) as [[]|]; reflexivity. }
  destruct (VariantA.priceTargets !! Symbol trade) as [targets|];
    [|cbn [fst snd]; rewrite Hpoll; auto].
  destruct (VariantA.gateOpen st (Symbol trade));
    [|cbn [fst snd]; rewrite Hpoll; auto].
  destruct (candidates price targets) as [|t rest];
    cbn [fst snd]; rewrite Hpoll; [auto|].
  split; [exact Hbot|].
  rewrite alerts_app, sent_app, alerts_sendLog, sent_sendLog. cbn.
  reflexivity.
Qed.

Lemma readerA_fanout (rs : list (Z * ReadResult)) (st : VariantA.State) :
  VariantA.bot st = true ->
  sent (VariantA.reader rs st).1.2
  = flat_map fanout (alerts (VariantA.reader rs st).1.2).
Proof.
  revert st. induction rs as [|[now r] rest IH]; intros st Hbot; [reflexivity|].
  rewrite readerA_cons.
  destruct (stepA_fanout now r st Hbot) as [Hbot1 Hstep].
  destruct (VariantA.step now r st) as [[st1 out] c]. cbn [fst snd] in *.
  destruct c; cbn [fst snd]; trivial.
  specialize (IH st1 Hbot1).
  destruct (VariantA.reader rest st1) as [[st2 out'] e]. cbn [fst snd] in *.
  rewrite sent_app, alerts_app, flat_map_app. congruence.
Qed.

(** C9. In variant A an alert is sent with one call per chat id of the
    list, in order, each with the symbol, price and target of the alert; a
    call that fails is logged and the calls for the remaining chat ids are
    still made; the loop ends normally, leaves the alert variables as they
    were, and over a whole run every alert line stands for one message to
    each chat id, whatever the calls answered. *)
Theorem alert_is_sent_to_every_chat
    (trade : TradeMessage) (price target : float) (st : VariantA.State) :
  VariantA.bot st = true ->
  let messages := map (notification trade price target) VariantA.chatIds in
  VariantA.sendTelegramChats trade price target st
  = (addSends (length VariantA.chatIds) st,
     sendLog (VariantA.sendCalls st) messages, Next)
  /\ sent (sendLog (VariantA.sendCalls st) messages) = messages
  /\ (forall (i : nat) (m : TradeTelegramMessage),
         messages !! i = Some m ->
         bot_Send (VariantA.sendCalls st + i) m = false ->
         LogSendError (ChatID m) ∈ sendLog (VariantA.sendCalls st) messages)
  /\ (forall rs : list (Z * ReadResult),
         sent (VariantA.reader rs st).1.2
         = flat_map fanout (alerts (VariantA.reader rs st).1.2)).
Proof.
  intros Hbot messages. split; [apply sendTo_spec, Hbot|].
  split; [apply sent_sendLog|]. split; [|intros rs; apply readerA_fanout, Hbot].
  generalize (VariantA.sendCalls st). clear.
  induction messages as [|m' rest IH]; intros n i m Hi Hfail; [discriminate|].
  cbn [sendLog]. destruct i as [|i]; simpl in Hi.
  - injection Hi as ->. rewrite Nat.add_0_r in Hfail. rewrite Hfail.
    set_solver.
  - apply list_elem_of_further, elem_of_app. right.
    apply (IH (S n) i m Hi). rewrite <- Hfail. f_equal. lia.
Qed.

End Evaluation.

(** ** De-duplication in variant A *)

Section Deduplication.
Context `{GoLib}.

Lemma runCallback_keeps (now : Z) (st : VariantA.State) :
  VariantA.bot (VariantA.runCallback now st) = VariantA.bot st
  /\ VariantA.lastSymbol (VariantA.runCallback now st) = VariantA.lastSymbol st
  /\ VariantA.sendCalls (VariantA.runCallback now st) = VariantA.sendCalls st
  /\ VariantA.chanC (VariantA.alertTimer (VariantA.runCallback now st))
     = VariantA.chanC (VariantA.alertTimer st)
  /\ (VariantA.alertEmitted (VariantA.runCallback now st) = true ->
      VariantA.alertEmitted st = true).
Proof.
  unfold VariantA.runCallback.
  destruct (VariantA.callbackAt (VariantA.alertTimer st)) as [d|]; [|auto].
  destruct (d <=? now)%Z; simpl; auto. repeat split; discriminate.
Qed.

(** Before its deadline the callback has not run. *)
Lemma runCallback_pending (now deadline : Z) (st : VariantA.State) :
  VariantA.callbackAt (VariantA.alertTimer st) = Some deadline ->
  (now < deadline)%Z ->
  VariantA.runCallback now st = st.
Proof.
  intros Hat Hlt. unfold VariantA.runCallback. rewrite Hat.
  destruct (Z.leb_spec deadline now); [lia | reflexivity].
Qed.

(** From its deadline on the callback has run and the flag is down. *)
Lemma runCallback_due (now deadline : Z) (st : VariantA.State) :
  VariantA.callbackAt (VariantA.alertTimer st) = Some deadline ->
  (deadline <= now)%Z ->
  VariantA.alertEmitted (VariantA.runCallback now st) = false.
Proof.
  intros Hat Hle. unfold VariantA.runCallback. rewrite Hat.
  destruct (Z.leb_spec deadline now); [reflexivity | lia].
Qed.

(** The [select] finds a value only in a channel that holds one. *)
Lemma pollTimer_empty (st : VariantA.State) :
  channelEmpty st -> VariantA.pollTimer st = st.
Proof.
  unfold channelEmpty, VariantA.pollTimer.
  destruct (VariantA.chanC (VariantA.alertTimer st)) as [[]|]; congruence.
Qed.

Lemma pollTimer_keeps (st : VariantA.State) :
  VariantA.bot (VariantA.pollTimer st) = VariantA.bot st
  /\ VariantA.lastSymbol (VariantA.pollTimer st) = VariantA.lastSymbol st
  /\ (VariantA.alertEmitted (VariantA.pollTimer st) = true ->
      VariantA.alertEmitted st = true)
  /\ channelEmpty (VariantA.pollTimer st).
Proof.
  unfold VariantA.pollTimer, channelEmpty.
  destruct (VariantA.chanC (VariantA.alertTimer st)) as [[]|] eqn:HC; simpl;
    rewrite ?HC; repeat split; auto; discriminate.
Qed.

Lemma gateOpen_iff (st : VariantA.State) (symbol : string) :
  VariantA.gateOpen st symbol = true
  <-> VariantA.alertEmitted st = false \/ VariantA.lastSymbol st <> symbol.
Proof.
  unfold VariantA.gateOpen.
  rewrite orb_true_iff, !negb_true_iff, String.eqb_neq. reflexivity.
Qed.

(** A matching tick, pass by pass: with the gate open the first matching
    target is alerted and the suppression armed; with the gate shut nothing
    happens. *)
Lemma stepA_matching (now : Z) (message : string) (trade : TradeMessage)
    (price : float) (targets : list float) (target : float) (others : list float)
    (st : VariantA.State) :
  decodes message trade price ->
  VariantA.priceTargets !! Symbol trade = Some targets ->
  candidates price targets = target :: others ->
  VariantA.bot st = true ->
  VariantA.step now (ReadOk message) st =
    let st0 := VariantA.runCallback now st in
    if VariantA.gateOpen st0 (Symbol trade) then
      (addSends (length VariantA.chatIds) (VariantA.arm now (Symbol trade) st0),
       (sendLog (VariantA.sendCalls st0)
          (map (notification trade price target) VariantA.chatIds)
        ++ [LogAlert (Symbol trade) price target])%list,
       Next)
    else (VariantA.pollTimer st0, [], Next).
Proof.
  intros Hdec Hs Hcand Hbot. unfold VariantA.step.
  destruct (runCallback_keeps now st) as (Hbot0 & _).
  rewrite (iterationA_tick _ _ _ _ _ Hdec).
  rewrite evaluateA_spec by congruence. rewrite Hs, Hcand. cbv zeta.
  destruct (VariantA.gateOpen _ _); reflexivity.
Qed.

Lemma candidates_nil (price : float) (targets : list float) :
  existsb (isWithinThreshold price) targets = false -> candidates price targets = [].
Proof.
  induction targets as [|t rest IH]; simpl; [reflexivity|].
  intros [Ht Hrest]%orb_false_iff. rewrite Ht. auto.
Qed.

Lemma rangeTargetsA_none (now : Z) (trade : TradeMessage) (price : float)
    (targets : list float) (st : VariantA.State) :
  candidates price targets = [] ->
  VariantA.rangeTargets now trade price targets st = (st, [], Next).
Proof.
  induction targets as [|t rest IH]; simpl; [reflexivity|].
  destruct (isWithinThreshold price t); [discriminate | exact IH].
Qed.

(** A frame that is not a matching tick raises no alert. *)
Lemma stepA_no_match (now : Z) (r : ReadResult) (st : VariantA.State) :
  ~ frameMatches VariantA.priceTargets r ->
  alerts (VariantA.step now r st).1.2 = [].
Proof.
  intros Hno. unfold VariantA.step.
  generalize (VariantA.runCallback now st). clear st. intros st.
  unfold VariantA.iteration.
  destruct r as [closeErr|message]; [destruct closeErr; reflexivity|].
  destruct (json_Unmarshal message) as [trade|] eqn:Hjson; [|reflexivity].
  destruct (String.eqb _ _) eqn:Hevent; [|reflexivity].
  destruct (strconv_ParseFloat (Price trade)) as [price|] eqn:Hprice; [|reflexivity].
  assert (Hm : matches VariantA.priceTargets trade price = false).
  { apply not_true_is_false. intros Hm. apply Hno.
    exists message, trade, price. repeat split; trivial. }
  unfold matches in Hm. unfold VariantA.evaluate.
  destruct (VariantA.priceTargets !! Symbol trade) as [targets|]; [|reflexivity].
  rewrite rangeTargetsA_none by apply candidates_nil, Hm. reflexivity.
Qed.

Lemma readerA_no_match (rs : list (Z * ReadResult)) (st : VariantA.State) :
  Forall (fun tr => ~ frameMatches VariantA.priceTargets tr.2) rs ->
  alerts (VariantA.reader rs st).1.2 = [].
Proof.
  revert st. induction rs as [|[now r] rest IH]; intros st Hall; [reflexivity|].
  apply Forall_cons in Hall as [Hr Hrest]. rewrite readerA_cons.
  pose proof (stepA_no_match now r st Hr) as Hstep.
  destruct (VariantA.step now r st) as [[st1 out] c]. cbn [fst snd] in *.
  destruct c; cbn [fst snd]; trivial.
  specialize (IH st1 Hrest).
  destruct (VariantA.reader rest st1) as [[st2 out'] e]. cbn [fst snd] in *.
  rewrite alerts_app, Hstep, IH. reflexivity.
Qed.

Lemma stepA_recorded (now : Z) (r : ReadResult) (st : VariantA.State) :
  VariantA.bot st = true ->
  recorded st (VariantA.step now r st).1.1 (VariantA.step now r st).1.2.
Proof.
  intros Hbot. unfold VariantA.step, recorded.
  destruct (runCallback_keeps now st) as (Hbot0 & Hsym0 & _ & _ & Hflag0).
  rewrite <- Hsym0. rewrite <- Hbot0 in Hbot.
  revert Hbot Hflag0. generalize (VariantA.runCallback now st) as st0.
  intros st0 Hbot Hflag0. unfold VariantA.iteration.
  destruct r as [closeErr|message]; [destruct closeErr; cbn; auto|].
  destruct (json_Unmarshal message) as [trade|]; [|cbn; auto].
  destruct (String.eqb _ _); [|cbn; auto].
  destruct (strconv_ParseFloat (Price trade)) as [price|]; [|cbn; auto].
  rewrite evaluateA_spec by exact Hbot.
  assert (Hpoll : forall out, lastAlerted out = None ->
            VariantA.bot (VariantA.pollTimer st0) = true
            /\ match lastAlerted out with
               | Some symbol => VariantA.lastSymbol (VariantA.pollTimer st0) = symbol
               | None =>
                   VariantA.lastSymbol (VariantA.pollTimer st0) = VariantA.lastSymbol st0
                   /\ (VariantA.alertEmitted (VariantA.pollTimer st0) = true ->
                       VariantA.alertEmitted st = true)
               end).
  { intros out ->. destruct (pollTimer_keeps st0) as (Hb & Hs & Hf & _).
    rewrite Hb, Hs. auto. }
  destruct (VariantA.priceTargets !! Symbol trade) as [targets|];
    [|cbn [fst snd]; apply Hpoll; reflexivity].
  destruct (VariantA.gateOpen st0 (Symbol trade));
    [|cbn [fst snd]; apply Hpoll; reflexivity].
  destruct (candidates price targets) as [|t rest];
    [cbn [fst snd]; apply Hpoll; reflexivity|].
  cbn [fst snd]. unfold lastAlerted.
  rewrite alerts_app, alerts_sendLog. cbn. auto.
Qed.

Lemma lastAlerted_app (a b : list Effect) :
  lastAlerted (a ++ b) =
    match lastAlerted b with Some s => Some s | None => lastAlerted a end.
Proof.
  unfold lastAlerted. rewrite alerts_app, last_app.
  destruct (last (alerts b)) as [[[? ?] ?]|]; reflexivity.
Qed.

Lemma readerA_recorded (rs : list (Z * ReadResult)) (st : VariantA.State) :
  VariantA.bot st = true ->
  recorded st (VariantA.reader rs st).1.1 (VariantA.reader rs st).1.2.
Proof.
  revert st. induction rs as [|[now r] rest IH]; intros st Hbot.
  - cbn. repeat split; auto.
  - rewrite readerA_cons. pose proof (stepA_recorded now r st Hbot) as Hstep.
    destruct (VariantA.step now r st) as [[st1 out] c]. cbn [fst snd] in *.
    destruct c; cbn [fst snd]; trivial.
    destruct Hstep as (Hbot1 & Hstep). specialize (IH st1 Hbot1).
    destruct (VariantA.reader rest st1) as [[st2 out'] e]. cbn [fst snd] in *.
    destruct IH as (Hbot2 & IH). split; [exact Hbot2|].
    rewrite lastAlerted_app.
    destruct (lastAlerted out') as [s'|]; [exact IH|].
    destruct IH as (Hs & Hf).
    destruct (lastAlerted out) as [s0|]; [congruence|].
    destruct Hstep as (Hs1 & Hf1). split; [congruence | auto].
Qed.

Lemma readerA_app (pre rs : list (Z * ReadResult)) (st st1 : VariantA.State)
    (out : list Effect) :
  VariantA.reader pre st = (st1, out, Interrupted) ->
  VariantA.reader (pre ++ rs) st =
    let '(st2, out', e) := VariantA.reader rs st1 in (st2, (out ++ out')%list, e).
Proof.
  revert st out. induction pre as [|[now r] rest IH]; intros st out.
  - cbn. intros [= <- <-]. destruct (VariantA.reader rs st) as [[? ?] ?]. reflexivity.
  - rewrite <- app_comm_cons, !readerA_cons.
    destruct (VariantA.step now r st) as [[st' o] c].
    destruct c; [|discriminate..].
    destruct (VariantA.reader rest st') as [[st'' o'] e'] eqn:Hrest.
    intros [= -> <- ->]. rewrite (IH st' o' Hrest).
    destruct (VariantA.reader rs st1) as [[? ?] ?]. rewrite app_assoc. reflexivity.
Qed.

End Deduplication.

Section Suppression.
Context `{GoLib}.

Lemma sent_alert (n : nat) (messages : list TradeTelegramMessage) (a : Effect) :
  sent [a] = [] -> sent (sendLog n messages ++ [a]) = messages.
Proof.
  intros Ha. rewrite sent_app, sent_sendLog, Ha. apply app_nil_r.
Qed.

(** The state a delivered alert leaves behind. *)
Lemma armed_state (n : nat) (now : Z) (symbol : string) (st : VariantA.State) :
  let st1 := addSends n (VariantA.arm now symbol st) in
  VariantA.bot st1 = VariantA.bot st
  /\ VariantA.alertEmitted st1 = true
  /\ VariantA.lastSymbol st1 = symbol
  /\ VariantA.callbackAt (VariantA.alertTimer st1) = Some (now + VariantA.minute)%Z
  /\ channelEmpty st1.
Proof. cbv zeta. unfold channelEmpty. simpl. repeat split; discriminate. Qed.

(** C4. In variant A a tick that matches a target is delivered exactly when
    no suppression is active or its symbol differs from the recorded one.
    A delivered alert goes to every chat, raises the flag, records the
    symbol and sets the callback one minute ahead; until then the flag
    stays up, from then on it is down.  So a second matching tick within the
    minute is dropped when it carries the same symbol and delivered when it
    carries another one, and after the minute it is delivered again. *)
Theorem suppression_gate_and_cooldown
    (message : string) (trade : TradeMessage) (price : float)
    (targets : list float) (target : float) (others : list float)
    (now : Z) (st : VariantA.State) :
  decodes message trade price ->
  VariantA.priceTargets !! Symbol trade = Some targets ->
  candidates price targets = target :: others ->
  VariantA.bot st = true ->
  channelEmpty st ->
  let st0 := VariantA.runCallback now st in
  let st1 := (VariantA.step now (ReadOk message) st).1.1 in
  let out := (VariantA.step now (ReadOk message) st).1.2 in
  (VariantA.step now (ReadOk message) st).2 = Next
  /\ (sent out <> []
      <-> VariantA.alertEmitted st0 = false
          \/ VariantA.lastSymbol st0 <> Symbol trade)
  /\ (sent out = [] -> out = [] /\ st1 = st0)
  /\ (sent out <> [] ->
      sent out = map (notification trade price target) VariantA.chatIds
      /\ VariantA.alertEmitted st1 = true
      /\ VariantA.lastSymbol st1 = Symbol trade
      /\ VariantA.callbackAt (VariantA.alertTimer st1)
         = Some (now + VariantA.minute)%Z
      /\ (forall later : Z,
             (later < now + VariantA.minute)%Z ->
             VariantA.runCallback later st1 = st1)
      /\ (forall later : Z,
             (now + VariantA.minute <= later)%Z ->
             VariantA.alertEmitted (VariantA.runCallback later st1) = false)
      /\ (forall (message2 : string) (trade2 : TradeMessage) (price2 : float)
            (targets2 : list float) (target2 : float) (others2 : list float)
            (later : Z),
             decodes message2 trade2 price2 ->
             VariantA.priceTargets !! Symbol trade2 = Some targets2 ->
             candidates price2 targets2 = target2 :: others2 ->
             let out2 := (VariantA.step later (ReadOk message2) st1).1.2 in
             let messages2 :=
               map (notification trade2 price2 target2) VariantA.chatIds in
             ((later < now + VariantA.minute)%Z ->
              Symbol trade2 = Symbol trade -> out2 = [])
             /\ ((later < now + VariantA.minute)%Z ->
                 Symbol trade2 <> Symbol trade -> sent out2 = messages2)
             /\ ((now + VariantA.minute <= later)%Z -> sent out2 = messages2))).
Proof.
  intros Hdec Hs Hcand Hbot Hchan st0 st1 out.
  destruct (runCallback_keeps now st) as (Hbot0 & _ & _ & HC0 & _).
  fold st0 in Hbot0, HC0.
  assert (Hchan0 : channelEmpty st0) by (unfold channelEmpty; rewrite HC0; exact Hchan).
  pose proof (stepA_matching now message trade price targets target others st
                Hdec Hs Hcand Hbot) as Hstep.
  cbv zeta in Hstep. fold st0 in Hstep.
  subst st1 out. rewrite Hstep. clear Hstep.
  destruct (VariantA.gateOpen st0 (Symbol trade)) eqn:Hgate; cbn [fst snd].
  - (* the gate is open: the alert is delivered *)
    rewrite sent_alert by reflexivity.
    set (st1 := addSends (length VariantA.chatIds) (VariantA.arm now (Symbol trade) st0)).
    destruct (armed_state (length VariantA.chatIds) now (Symbol trade) st0)
      as (Hbot1 & Hflag1 & Hsym1 & Hat1 & Hchan1).
    fold st1 in Hbot1, Hflag1, Hsym1, Hat1, Hchan1.
    split; [reflexivity|].
    split; [split; [intros _; apply gateOpen_iff, Hgate | discriminate]|].
    split; [discriminate|]. intros _.
    split; [reflexivity|]. split; [exact Hflag1|]. split; [exact Hsym1|].
    split; [exact Hat1|].
    split; [intros later Hlater; apply (runCallback_pending _ _ _ Hat1 Hlater)|].
    split; [intros later Hlater; apply (runCallback_due _ _ _ Hat1 Hlater)|].
    intros message2 trade2 price2 targets2 target2 others2 later Hdec2 Hs2 Hcand2.
    pose proof (stepA_matching later message2 trade2 price2 targets2 target2 others2
                  st1 Hdec2 Hs2 Hcand2 ltac:(congruence)) as Hstep2.
    cbv zeta in *. rewrite Hstep2. clear Hstep2.
    split; [|split].
    + intros Hlater Hsame. rewrite (runCallback_pending _ _ _ Hat1 Hlater).
      unfold VariantA.gateOpen. rewrite Hflag1, Hsym1, Hsame, String.eqb_refl.
      reflexivity.
    + intros Hlater Hother. rewrite (runCallback_pending _ _ _ Hat1 Hlater).
      replace (VariantA.gateOpen st1 (Symbol trade2)) with true.
      * cbn [fst snd]. apply sent_alert. reflexivity.
      * symmetry. apply gateOpen_iff. right. congruence.
    + intros Hlater.
      replace (VariantA.gateOpen (VariantA.runCallback later st1) (Symbol trade2))
        with true.
      * cbn [fst snd]. apply sent_alert. reflexivity.
      * symmetry. apply gateOpen_iff. left.
        apply (runCallback_due _ _ _ Hat1 Hlater).
  - (* the gate is shut: nothing happens *)
    split; [reflexivity|].
    split; [split; [intros Hne; contradiction Hne; reflexivity|]|].
    + intros Hopen%gateOpen_iff. congruence.
    + split; [intros _; split; [reflexivity | apply pollTimer_empty, Hchan0]|].
      intros Hne. contradiction Hne. reflexivity.
Qed.

End Suppression.

(** ** The first alert of a run and the recorded symbol *)

Section FirstAlert.
Context `{GoLib}.

(** C10. Variant A starts with the flag down.  When the bot handle was
    obtained, the first tick of a run that matches a configured target is
    sent to every chat, no frame before it having sent anything; and at any
    point of a run where the flag is up, the recorded symbol is the symbol of
    the last alert raised. *)
Theorem first_match_is_delivered_and_symbol_is_recorded (s : Startup) :
  VariantA.alertEmitted (VariantA.initial s) = false
  /\ (botErr s = false ->
      forall (pre : list (Z * ReadResult)) (st : VariantA.State) (out : list Effect)
        (message : string) (trade : TradeMessage) (price : float)
        (targets : list float) (target : float) (others : list float) (now : Z),
        VariantA.reader pre (VariantA.initial s) = (st, out, Interrupted) ->
        Forall (fun tr => ~ frameMatches VariantA.priceTargets tr.2) pre ->
        decodes message trade price ->
        VariantA.priceTargets !! Symbol trade = Some targets ->
        candidates price targets = target :: others ->
        sent out = []
        /\ exists (st1 : VariantA.State) (out1 : list Effect),
             VariantA.reader (pre ++ [(now, ReadOk message)]) (VariantA.initial s)
             = (st1, (out ++ out1)%list, Interrupted)
             /\ sent out1 = map (notification trade price target) VariantA.chatIds)
  /\ (botErr s = false ->
      forall rs : list (Z * ReadResult),
        VariantA.alertEmitted (VariantA.reader rs (VariantA.initial s)).1.1 = true ->
        lastAlerted (VariantA.reader rs (VariantA.initial s)).1.2
        = Some (VariantA.lastSymbol (VariantA.reader rs (VariantA.initial s)).1.1)).
Proof.
  split; [reflexivity|].
  split; intros Hbot.
  - intros pre st out message trade price targets target others now
      Hpre Hquiet Hdec Hs Hcand.
    assert (Hbot0 : VariantA.bot (VariantA.initial s) = true)
      by (unfold VariantA.initial; simpl; rewrite Hbot; reflexivity).
    pose proof (readerA_recorded pre _ Hbot0) as (Hbot1 & Hrec).
    pose proof (readerA_no_match pre (VariantA.initial s) Hquiet) as Hnone.
    pose proof (readerA_fanout pre _ Hbot0) as Hfan.
    rewrite Hpre in Hbot1, Hrec, Hnone, Hfan. cbn [fst snd] in *.
    rewrite Hnone in Hfan. split; [exact Hfan|].
    unfold lastAlerted in Hrec. rewrite Hnone in Hrec. destruct Hrec as (_ & Hflag).
    assert (Hdown : VariantA.alertEmitted (VariantA.runCallback now st) = false).
    { apply not_true_is_false. intros Hup.
      apply runCallback_keeps in Hup. apply Hflag in Hup. discriminate. }
    rewrite (readerA_app pre _ _ _ _ Hpre), readerA_cons.
    rewrite (stepA_matching now message trade price targets target others st
               Hdec Hs Hcand Hbot1).
    cbv zeta. unfold VariantA.gateOpen at 1. rewrite Hdown. cbn [negb orb VariantA.reader].
    eexists _, _. split; [reflexivity|].
    rewrite app_nil_r. apply sent_alert. reflexivity.
  - intros rs Hup.
    assert (Hbot0 : VariantA.bot (VariantA.initial s) = true)
      by (unfold VariantA.initial; simpl; rewrite Hbot; reflexivity).
    pose proof (readerA_recorded rs _ Hbot0) as (_ & Hrec).
    destruct (lastAlerted _) as [symbol|]; [congruence|].
    destruct Hrec as (_ & Hflag). apply Hflag in Hup. discriminate.
Qed.

(** With a nil bot handle the first matching tick arms the suppression and
    then panics at the first [bot.Send]. *)
Lemma nil_bot_first_alert_panics
    (now : Z) (message : string) (trade : TradeMessage) (price : float)
    (targets : list float) (target : float) (others : list float)
    (st : VariantA.State) :
  decodes message trade price ->
  VariantA.priceTargets !! Symbol trade = Some targets ->
  candidates price targets = target :: others ->
  VariantA.bot st = false ->
  VariantA.gateOpen st (Symbol trade) = true ->
  VariantA.iteration now (ReadOk message) st
  = (VariantA.arm now (Symbol trade) st, [], Panicked).
Proof.
  intros Hdec Hs Hcand Hbot Hgate.
  rewrite (iterationA_tick _ _ _ _ _ Hdec). unfold VariantA.evaluate. rewrite Hs.
  clear Hs. revert Hcand. induction targets as [|t rest IH]; [discriminate|].
  cbn [candidates List.filter VariantA.rangeTargets].
  destruct (isWithinThreshold price t) eqn:Ht; rewrite Hgate; cbn [andb].
  - intros _. unfold VariantA.sendTelegramChats, VariantA.chatIds.
    rewrite sendTo_nil_bot by exact Hbot. reflexivity.
  - exact IH.
Qed.

End FirstAlert.

(** ** The subscription *)

Section Subscription.
Context `{GoLib}.














End Subscription.

(** ** The timer channel *)

Section TimerChannel.
Context `{GoLib}.

Lemma sendTo_timer (ids : list Z) (trade : TradeMessage) (price target : float)
    (st : VariantA.State) :
  VariantA.alertTimer (VariantA.sendTo ids trade price target st).1.1
  = VariantA.alertTimer st.
Proof.
  revert st. induction ids as [|chat rest IH]; intros st; [reflexivity|].
  cbn [VariantA.sendTo]. unfold VariantA.sendMessage.
  destruct (VariantA.bot st); [|reflexivity].
  match goal with
  | |- context [VariantA.sendTo rest trade price target ?st1] =>
      specialize (IH st1); destruct (VariantA.sendTo rest trade price target st1)
        as [[st2 out2] c2]
  end.
  exact IH.
Qed.

Lemma rangeTargets_channel (now : Z) (trade : TradeMessage) (price : float)
    (targets : list float) (st : VariantA.State) :
  channelEmpty st ->
  channelEmpty (VariantA.rangeTargets now trade price targets st).1.1.
Proof.
  revert st. induction targets as [|t rest IH]; intros st Hst; [exact Hst|].
  cbn [VariantA.rangeTargets].
  destruct (isWithinThreshold price t && VariantA.gateOpen st (Symbol trade));
    [|apply IH, Hst].
  unfold VariantA.sendTelegramChats.
  pose proof (sendTo_timer VariantA.chatIds trade price t
                (VariantA.arm now (Symbol trade) st)) as Htimer.
  destruct (VariantA.sendTo _ _ _ _ _) as [[st1 out1] c]. cbn [fst snd] in *.
  assert (Hst1 : channelEmpty st1)
    by (unfold channelEmpty; rewrite Htimer; discriminate).
  destruct c; trivial.
  specialize (IH st1 Hst1).
  destruct (VariantA.rangeTargets now trade price rest st1) as [[st2 out2] c2].
  exact IH.
Qed.

Lemma step_channel (now : Z) (r : ReadResult) (st : VariantA.State) :
  channelEmpty st -> channelEmpty (VariantA.step now r st).1.1.
Proof.
  intros Hst. unfold VariantA.step.
  assert (Hst0 : channelEmpty (VariantA.runCallback now st)).
  { unfold channelEmpty. destruct (runCallback_keeps now st) as (_ & _ & _ & -> & _).
    exact Hst. }
  revert Hst0. generalize (VariantA.runCallback now st). clear st Hst.
  intros st Hst. unfold VariantA.iteration.
  destruct r as [closeErr|message]; [exact Hst|].
  destruct (json_Unmarshal message) as [trade|]; [|exact Hst].
  destruct (String.eqb _ _); [|exact Hst].
  destruct (strconv_ParseFloat (Price trade)) as [price|]; [|exact Hst].
  unfold VariantA.evaluate.
  destruct (VariantA.priceTargets !! Symbol trade) as [targets|].
  - pose proof (rangeTargets_channel now trade price targets st Hst) as Hloop.
    destruct (VariantA.rangeTargets _ _ _ _ _) as [[st1 out] c].
    destruct c; cbn [fst snd] in *; trivial. apply pollTimer_keeps.
  - apply pollTimer_keeps.
Qed.

(** The [select] at the end of a pass never finds a value: the channel of
    the first timer was emptied before the loop, a timer made by
    [time.AfterFunc] has no channel, so throughout a run the poll leaves the
    state as it is and only the callback lowers the flag. *)
Theorem timer_channel_is_never_ready (s : Startup) (rs : list (Z * ReadResult)) :
  channelEmpty (VariantA.initial s)
  /\ channelEmpty (VariantA.reader rs (VariantA.initial s)).1.1
  /\ (forall st : VariantA.State, channelEmpty st -> VariantA.pollTimer st = st).
Proof.
  split; [discriminate|]. split; [|exact pollTimer_empty].
  assert (Hinit : channelEmpty (VariantA.initial s)) by discriminate.
  revert Hinit. generalize (VariantA.initial s).
  induction rs as [|[now r] rest IH]; intros st Hst; [exact Hst|].
  rewrite readerA_cons. pose proof (step_channel now r st Hst) as Hstep.
  destruct (VariantA.step now r st) as [[st1 out] c]. cbn [fst snd] in *.
  destruct c; trivial.
  specialize (IH st1 Hstep). destruct (VariantA.reader rest st1) as [[st2 out'] e].
  exact IH.
Qed.

End TimerChannel.

(** ** The properties on the sample frames *)

Section Samples.
Import Sample.

Local Abbreviation start := (VariantA.initial startupA).
Local Abbreviation sol := (tick "SOLUSDT" "208.9").
Local Abbreviation link := (tick "LINKUSDT" "21.7").

Lemma sample_decodes_sol : decodes (frame "SOLUSDT" "208.9") sol 208.9.
Proof. repeat split. Qed.

Lemma sample_decodes_link : decodes (frame "LINKUSDT" "21.7") link 21.7.
Proof. repeat split. Qed.

Lemma sample_decodes_doge : decodes (frame "DOGEUSDT" "-1") (tick "DOGEUSDT" "-1") (-1).
Proof. repeat split. Qed.

(** The scenario of the specification: 205.00 is outside the bands of 210,
    200 and 190, and 208.9 is inside the band of 210. *)
Example sample_scenario :
  VariantB.iteration (ReadOk (frame "SOLUSDT" "205.00")) = ([], Next)
  /\ VariantB.iteration (ReadOk (frame "SOLUSDT" "208.9"))
     = ([LogAlert "SOLUSDT" 208.9 210], Next)
  /\ (VariantA.step 0 (ReadOk (frame "SOLUSDT" "205.00")) start).1.2 = []
  /\ alerts (VariantA.step 0 (ReadOk (frame "SOLUSDT" "208.9")) start).1.2
     = [("SOLUSDT", 208.9%float, 210%float)]
  /\ VariantB.iteration (ReadOk ack) = ([], Next).
Proof. vm_compute. repeat split. Qed.

(** C1, the claim as stated fails: the body ["not json"] is rejected by the
    decoder and both variants panic on it; neither goes on to the next
    frame. *)
Lemma decode_failure_crashes_both_samples :
  json_Unmarshal garbage = None
  /\ (VariantA.step 0 (ReadOk garbage) start).2 = Panicked
  /\ (VariantB.iteration (ReadOk garbage)).2 = Panicked
  /\ ~ onlyOneCrashes (VariantA.step 0 (ReadOk garbage) start).2
                      (VariantB.iteration (ReadOk garbage)).2.
Proof.
  repeat split. vm_compute. intros [[_ Hnext] | [Hnext _]]; discriminate.
Qed.

Lemma decode_failure_sample :
  json_Unmarshal garbage = None
  /\ VariantB.reader [ReadOk garbage; ReadOk (frame "SOLUSDT" "208.9")]
     = ([LogDecodeError], Crashed)
  /\ (VariantA.reader [(0%Z, ReadOk garbage); (1%Z, ReadOk (frame "SOLUSDT" "208.9"))]
        start).2 = Crashed.
Proof.
  destruct (decode_failure_panics_in_both_variants (H:=lib) garbage 0 start
              [ReadOk (frame "SOLUSDT" "208.9")]
              [(1%Z, ReadOk (frame "SOLUSDT" "208.9"))] ltac:(vm_compute; reflexivity))
    as (_ & HB & _ & HA).
  split; [reflexivity|]. split; [exact HB|]. rewrite HA. reflexivity.
Defined.

(** C5, the claim as stated fails: the price string ["-1"] parses, and the
    tick is evaluated and logged with the negative price; ["NaN"] parses
    too. *)
Lemma negative_price_reaches_evaluation :
  decodes (frame "DOGEUSDT" "-1") (tick "DOGEUSDT" "-1") (-1)
  /\ nonNegativeFinite (-1) = false
  /\ VariantB.iteration (ReadOk (frame "DOGEUSDT" "-1"))
     = (VariantB.evaluate (tick "DOGEUSDT" "-1") (-1), Next)
  /\ VariantB.evaluate (tick "DOGEUSDT" "-1") (-1) = [LogPrice "DOGEUSDT" (-1)]
  /\ (VariantA.step 0 (ReadOk (frame "DOGEUSDT" "-1")) start).1.2
     = [LogPrice "DOGEUSDT" (-1)]
  /\ decodes (frame "DOGEUSDT" "NaN") (tick "DOGEUSDT" "NaN") nan
  /\ nonNegativeFinite nan = false
  /\ ~ (forall message trade price,
           decodes message trade price -> nonNegativeFinite price = true).
Proof.
  repeat split. intros Hall.
  specialize (Hall _ _ _ sample_decodes_doge). discriminate.
Qed.

Lemma evaluated_price_sample :
  VariantB.iteration (ReadOk (frame "DOGEUSDT" "-1"))
  = (VariantB.evaluate (tick "DOGEUSDT" "-1") (-1), Next)
  /\ VariantB.iteration (ReadOk (frame "DOGEUSDT" "abc")) = ([LogConvertError], Next).
Proof.
  split.
  - apply (evaluated_price_is_the_parse_result (H:=lib)
             (frame "DOGEUSDT" "-1") (tick "DOGEUSDT" "-1") 0 start ltac:(vm_compute; reflexivity) ltac:(vm_compute; reflexivity)).
  - apply (evaluated_price_is_the_parse_result (H:=lib)
             (frame "DOGEUSDT" "abc") (tick "DOGEUSDT" "abc") 0 start ltac:(vm_compute; reflexivity) ltac:(vm_compute; reflexivity)).
Defined.

Lemma malformed_price_sample :
  strconv_ParseFloat "abc" = None
  /\ VariantB.reader [ReadOk (frame "SOLUSDT" "abc"); ReadOk (frame "SOLUSDT" "208.9")]
     = ([LogConvertError; LogAlert "SOLUSDT" 208.9 210], Interrupted)
  /\ VariantA.step 0 (ReadOk (frame "SOLUSDT" "abc")) start
     = (start, [LogConvertError], Next).
Proof.
  destruct (malformed_price_skips_one_frame (H:=lib)
              (frame "SOLUSDT" "abc") (tick "SOLUSDT" "abc") 0 start
              [ReadOk (frame "SOLUSDT" "208.9")] [] ltac:(vm_compute; reflexivity) ltac:(vm_compute; reflexivity) ltac:(vm_compute; reflexivity))
    as (_ & HB & HA & _).
  split; [reflexivity|]. split; [rewrite HB; reflexivity | exact HA].
Defined.

Lemma unknown_symbol_sample :
  VariantA.priceTargets !! "DOGEUSDT" = None
  /\ VariantB.priceTargets !! "DOGEUSDT" = None
  /\ VariantB.iteration (ReadOk (frame "DOGEUSDT" "-1")) = ([LogPrice "DOGEUSDT" (-1)], Next)
  /\ VariantA.iteration 0 (ReadOk (frame "DOGEUSDT" "-1")) start
     = (start, [LogPrice "DOGEUSDT" (-1)], Next).
Proof.
  destruct (unknown_symbol_only_logs_price (H:=lib) _ _ _ 0 start sample_decodes_doge)
    as (HB & HA).
  split; [reflexivity|]. split; [reflexivity|].
  split; [exact (HB ltac:(vm_compute; reflexivity))|]. exact (proj1 (HA ltac:(vm_compute; reflexivity))).
Defined.

Lemma fan_out_sample :
  sent (VariantA.sendTelegramChats sol 208.9 210 start).1.2
  = [notification sol 208.9 210 (-1002314879454);
     notification sol 208.9 210 6753790669;
     notification sol 208.9 210 6717764833]
  /\ LogSendError 6753790669 ∈ (VariantA.sendTelegramChats sol 208.9 210 start).1.2
  /\ (VariantA.sendTelegramChats sol 208.9 210 start).2 = Next.
Proof.
  destruct (alert_is_sent_to_every_chat (H:=lib) sol 208.9 210 start ltac:(vm_compute; reflexivity))
    as (Hrun & Hsent & Hlog & _).
  rewrite Hrun. cbn [fst snd]. split; [exact Hsent|]. split; [|reflexivity].
  apply (Hlog 1%nat (notification sol 208.9 210 6753790669)); reflexivity.
Defined.

Lemma suppression_sample :
  let st1 := (VariantA.step 0 (ReadOk (frame "SOLUSDT" "208.9")) start).1.1 in
  sent (VariantA.step 0 (ReadOk (frame "SOLUSDT" "208.9")) start).1.2
  = map (notification sol 208.9 210) VariantA.chatIds
  /\ VariantA.alertEmitted st1 = true
  /\ VariantA.lastSymbol st1 = "SOLUSDT"
  /\ (VariantA.step 59999999999 (ReadOk (frame "SOLUSDT" "208.9")) st1).1.2 = []
  /\ sent (VariantA.step 59999999999 (ReadOk (frame "LINKUSDT" "21.7")) st1).1.2
     = map (notification link 21.7 21.7) VariantA.chatIds
  /\ sent (VariantA.step 60000000000 (ReadOk (frame "SOLUSDT" "208.9")) st1).1.2
     = map (notification sol 208.9 210) VariantA.chatIds.
Proof.
  cbv zeta.
  destruct (suppression_gate_and_cooldown (H:=lib)
              (frame "SOLUSDT" "208.9") sol 208.9 [210; 200; 190]%float 210 [] 0 start
              sample_decodes_sol ltac:(vm_compute; reflexivity) ltac:(vm_compute; reflexivity) ltac:(vm_compute; reflexivity) ltac:(discriminate))
    as (_ & Hgate & _ & Hsent).
  assert (Hdown : VariantA.alertEmitted (VariantA.runCallback 0 start) = false)
    by (vm_compute; reflexivity).
  destruct (Hsent (proj2 Hgate (or_introl Hdown)))
    as (Hout & Hflag & Hsym & _ & _ & _ & Hnext).
  split; [exact Hout|]. split; [exact Hflag|]. split; [exact Hsym|].
  destruct (Hnext _ sol 208.9%float [210; 200; 190]%float 210%float []
              59999999999%Z sample_decodes_sol ltac:(vm_compute; reflexivity) ltac:(vm_compute; reflexivity)) as (Hsame & _ & _).
  destruct (Hnext _ link 21.7%float [21.7; 20.8; 18.44; 25.00]%float 21.7%float []
              59999999999%Z sample_decodes_link ltac:(vm_compute; reflexivity) ltac:(vm_compute; reflexivity)) as (_ & Hother & _).
  destruct (Hnext _ sol 208.9%float [210; 200; 190]%float 210%float []
              60000000000%Z sample_decodes_sol ltac:(vm_compute; reflexivity) ltac:(vm_compute; reflexivity)) as (_ & _ & Hlate).
  split; [apply Hsame; [reflexivity | reflexivity]|].
  split; [apply Hother; [reflexivity | discriminate]|].
  apply Hlate. discriminate.
Defined.

(** Alerts of two symbols in turn: each one re-arms the suppression for its
    own symbol, so the first symbol is alerted again within its minute. *)
Example interleaved_symbols_sample :
  map (fun a => a.1.1)
      (alerts (VariantA.reader
                 [(0%Z, ReadOk (frame "SOLUSDT" "208.9"));
                  (1%Z, ReadOk (frame "SOLUSDT" "208.9"));
                  (2%Z, ReadOk (frame "LINKUSDT" "21.7"));
                  (3%Z, ReadOk (frame "SOLUSDT" "208.9"))] start).1.2)
  = ["SOLUSDT"; "LINKUSDT"; "SOLUSDT"].
Proof. vm_compute. reflexivity. Qed.

Lemma nil_bot_sample :
  let st := VariantA.initial
              {| rangeOrder := []; botErr := true; dialErr := false;
                 requestID := ""; writeErr := false |} in
  VariantA.bot st = false
  /\ (VariantA.reader [(0%Z, ReadOk (frame "SOLUSDT" "208.9"));
                       (1%Z, ReadOk (frame "SOLUSDT" "208.9"))] st).2 = Crashed
  /\ (VariantA.reader [(0%Z, ReadOk (frame "SOLUSDT" "208.9"));
                       (1%Z, ReadOk (frame "SOLUSDT" "208.9"))] st).1.2 = [].
Proof.
  cbv zeta. split; [reflexivity|].
  pose proof (nil_bot_first_alert_panics (H:=lib) 0 (frame "SOLUSDT" "208.9") sol 208.9
                [210; 200; 190]%float 210 []
                (VariantA.initial
                   {| rangeOrder := []; botErr := true; dialErr := false;
                      requestID := ""; writeErr := false |})
                sample_decodes_sol ltac:(vm_compute; reflexivity)
                ltac:(vm_compute; reflexivity) ltac:(vm_compute; reflexivity)
                ltac:(vm_compute; reflexivity)) as Hpanic.
  rewrite readerA_cons. unfold VariantA.step.
  change (VariantA.runCallback 0 ?st) with st. rewrite Hpanic. split; reflexivity.
Defined.


End Samples.

(** * Further properties of the code *)

(** ** Prices at the edges of binary64 *)

Module FloatEdges.

Lemma SFcompare_self (x : spec_float) :
  x <> S754_nan -> SFcompare x x = Some Eq.
Proof.
  destruct x as [[]| [] | | [] ? ?]; simpl; try congruence; intros _;
    rewrite Z.compare_refl;
    change (Pos.compare_cont Eq ?a ?a) with (Pos.compare a a);
    rewrite Pos.compare_refl; reflexivity.
Qed.

Lemma is_nan_spec (x : float) : is_nan x = true <-> Prim2SF x = S754_nan.
Proof.
  unfold is_nan. rewrite FloatAxioms.eqb_spec. unfold SFeqb. split.
  - destruct (Prim2SF x) eqn:Hx; try reflexivity;
      rewrite SFcompare_self by discriminate; discriminate.
  - intros ->. reflexivity.
Qed.

(** A comparison that holds has no NaN on either side. *)
Lemma leb_not_nan (a b : float) :
  (a <=? b)%float = true -> is_nan a = false /\ is_nan b = false.
Proof.
  rewrite leb_spec. intros Hle.
  split; apply not_true_is_false; intros Hnan; apply (proj1 (is_nan_spec _)) in Hnan;
    rewrite Hnan in Hle; [|destruct (Prim2SF a)]; discriminate.
Qed.

Lemma mul_nan (t c : float) : is_nan t = true -> is_nan (t * c) = true.
Proof. rewrite !is_nan_spec, mul_spec. intros ->. reflexivity. Qed.

(** Rounding keeps the sign it is given. *)
Lemma binary_round_aux_sign (sx : bool) (mx ex : Z) (lx : location) :
  let r := binary_round_aux prec emax sx mx ex lx in
  r = S754_nan \/ r = S754_zero sx \/ r = S754_infinity sx
  \/ exists m e, r = S754_finite sx m e.
Proof.
  cbv zeta. unfold binary_round_aux.
  destruct (shr_fexp prec emax mx ex lx) as [mrs' e'].
  destruct (shr_fexp prec emax _ e' loc_Exact) as [mrs'' e''].
  destruct (shr_m mrs'') as [|m|m]; auto.
  destruct (e'' <=? emax - prec)%Z; eauto 8.
Qed.

Lemma negative_spec (p : float) :
  (p <? 0)%float = true ->
  Prim2SF p = S754_infinity true \/ exists m e, Prim2SF p = S754_finite true m e.
Proof.
  rewrite ltb_spec. change (Prim2SF 0) with (S754_zero false).
  destruct (Prim2SF p) as [[]| [] | | [] ? ?]; simpl; try discriminate; eauto.
Qed.

Lemma nonnegative_spec (t : float) :
  (0 <=? t)%float = true ->
  (exists s, Prim2SF t = S754_zero s) \/ Prim2SF t = S754_infinity false
  \/ exists m e, Prim2SF t = S754_finite false m e.
Proof.
  rewrite leb_spec. change (Prim2SF 0) with (S754_zero false).
  destruct (Prim2SF t) as [[]| [] | | [] ? ?]; simpl; try discriminate; eauto.
Qed.

(** The lower bound of a target that is not negative is not negative
    either, so no negative price reaches it. *)
Lemma negative_below_band (p t : float) :
  (p <? 0)%float = true -> (0 <=? t)%float = true ->
  (lowerBound t <=? p)%float = false.
Proof.
  intros Hp Ht. unfold lowerBound. rewrite leb_spec, mul_spec.
  change (Prim2SF 0.99) with (S754_finite false 8917127262193582 (-53)).
  unfold SF64mul.
  assert (Hlow : forall r,
             r = S754_nan \/ (exists s, r = S754_zero s) \/ r = S754_infinity false
             \/ (exists m e, r = S754_finite false m e) ->
             SFleb r (Prim2SF p) = false).
  { intros r Hr.
    destruct (negative_spec p Hp) as [-> | (m & e & ->)];
      destruct Hr as [-> | [[s ->] | [-> | (m' & e' & ->)]]]; reflexivity. }
  apply Hlow.
  destruct (nonnegative_spec t Ht) as [[s ->] | [-> | (m & e & ->)]].
  - right; left. eexists. reflexivity.
  - right; right; left; reflexivity.
  - destruct (binary_round_aux_sign false (Z.pos (m * 8917127262193582))
                (e + -53) loc_Exact) as [Hr | [Hr | [Hr | Hr]]]; eauto.
Qed.

Lemma within_not_nan (p t : float) :
  isWithinThreshold p t = true -> is_nan p = false /\ is_nan t = false.
Proof.
  intros [Hlo Hhi]%isWithinThreshold_iff.
  split; [apply (leb_not_nan _ _ Hhi)|].
  apply not_true_is_false. intros Hnan.
  apply (mul_nan t 0.99) in Hnan.
  destruct (leb_not_nan _ _ Hlo) as [Hlow _]. unfold lowerBound in Hlow. congruence.
Qed.

Lemma within_not_negative (p t : float) :
  (p <? 0)%float = true -> (0 <=? t)%float = true -> isWithinThreshold p t = false.
Proof.
  intros Hp Ht. apply not_true_is_false. intros [Hlo _]%isWithinThreshold_iff.
  rewrite (negative_below_band p t Hp Ht) in Hlo. discriminate.
Qed.

Lemma configured_targets_sound (s : string) (targets : list float) :
  VariantA.priceTargets !! s = Some targets
  \/ VariantB.priceTargets !! s = Some targets ->
  forallb soundTarget targets = true.
Proof.
  intros [Hs | Hs]; revert s targets Hs; apply table_forall; vm_compute; reflexivity.
Qed.

(** A price within the threshold of a configured target is a
    non-negative finite number. *)
Lemma within_configured_finite (p : float) (s : string) (targets : list float)
    (t : float) :
  VariantA.priceTargets !! s = Some targets
  \/ VariantB.priceTargets !! s = Some targets ->
  t ∈ targets -> isWithinThreshold p t = true -> nonNegativeFinite p = true.
Proof.
  intros Hs Ht Hin.
  pose proof (configured_targets_sound s targets Hs) as Hall.
  rewrite forallb_forall in Hall.
  apply list_elem_of_In, Hall, andb_true_iff in Ht as [Hpos Hinf].
  apply negb_true_iff in Hinf.
  destruct (within_not_nan p t Hin) as [Hnan _].
  unfold nonNegativeFinite. rewrite leb_spec, ltb_spec.
  change (Prim2SF 0) with (S754_zero false).
  change (Prim2SF infinity) with (S754_infinity false).
  destruct (Prim2SF p) as [[]| [] | | [] m e] eqn:Hp; try reflexivity.
  - (* -infinity *)
    rewrite within_not_negative in Hin; [discriminate| |exact Hpos].
    rewrite ltb_spec, Hp. reflexivity.
  - (* +infinity *)
    assert (p = infinity) as -> by (apply Prim2SF_inj; rewrite Hp; reflexivity).
    congruence.
  - (* NaN *)
    apply not_true_iff_false in Hnan. contradiction Hnan.
    apply is_nan_spec, Hp.
  - (* negative finite *)
    rewrite within_not_negative in Hin; [discriminate| |exact Hpos].
    rewrite ltb_spec, Hp. reflexivity.
Qed.

End FloatEdges.

(** The threshold test at the edges of [float64]: it fails whenever the
    price or the target is a NaN, and whenever the price is negative and the
    target is not; for the targets of both tables it holds only at prices
    that are non-negative and finite. *)
Theorem threshold_rejects_unsound_prices :
  (forall p t : float,
      isWithinThreshold p t = true -> is_nan p = false /\ is_nan t = false)
  /\ (forall p t : float,
         (p <? 0)%float = true -> (0 <=? t)%float = true ->
         isWithinThreshold p t = false)
  /\ (forall (p : float) (s : string) (targets : list float) (t : float),
         VariantA.priceTargets !! s = Some targets
         \/ VariantB.priceTargets !! s = Some targets ->
         t ∈ targets -> isWithinThreshold p t = true ->
         nonNegativeFinite p = true).
Proof.
  split; [exact FloatEdges.within_not_nan|].
  split; [exact FloatEdges.within_not_negative|].
  exact FloatEdges.within_configured_finite.
Qed.

(** The band of a target has no holes: a price between two prices that are
    within the threshold is within it too. *)
Theorem band_is_an_interval (p1 p p2 t : float) :
  isWithinThreshold p1 t = true ->
  isWithinThreshold p2 t = true ->
  (p1 <=? p)%float = true ->
  (p <=? p2)%float = true ->
  isWithinThreshold p t = true.
Proof.
  intros [Hlo1 _]%isWithinThreshold_iff [_ Hhi2]%isWithinThreshold_iff Hp1 Hp2.
  apply isWithinThreshold_iff. split.
  - exact (FloatOrder.leb_trans _ _ _ Hlo1 Hp1).
  - exact (FloatOrder.leb_trans _ _ _ Hp2 Hhi2).
Qed.

(** ** One pass of variant A, whatever the bot handle *)

Section Passes.
Context `{GoLib}.

(** The loop over the targets in variant A, with or without a bot handle. *)
Lemma rangeTargetsA_cases (now : Z) (trade : TradeMessage) (price : float)
    (targets : list float) (st : VariantA.State) :
  VariantA.rangeTargets now trade price targets st =
    match (if VariantA.gateOpen st (Symbol trade)
           then candidates price targets else []) with
    | [] => (st, [], Next)
    | target :: _ =>
        if VariantA.bot st then
          (addSends (length VariantA.chatIds) (VariantA.arm now (Symbol trade) st),
           (sendLog (VariantA.sendCalls st)
              (map (notification trade price target) VariantA.chatIds)
            ++ [LogAlert (Symbol trade) price target])%list,
           Next)
        else (VariantA.arm now (Symbol trade) st, [], Panicked)
    end.
Proof.
  destruct (VariantA.bot st) eqn:Hbot.
  - rewrite rangeTargetsA_spec by exact Hbot.
    destruct (if VariantA.gateOpen st (Symbol trade) then _ else _); reflexivity.
  - destruct (VariantA.gateOpen st (Symbol trade)) eqn:Hgate;
      [|apply rangeTargetsA_shut, Hgate].
    induction targets as [|t rest IH]; [reflexivity|].
    cbn [candidates List.filter VariantA.rangeTargets].
    destruct (isWithinThreshold price t) eqn:Ht; rewrite Hgate; cbn [andb];
      [|exact IH].
    unfold VariantA.sendTelegramChats, VariantA.chatIds.
    rewrite sendTo_nil_bot by exact Hbot. reflexivity.
Qed.

Lemma candidates_head (price : float) (targets : list float) (t : float)
    (rest : list float) :
  candidates price targets = t :: rest ->
  t ∈ targets /\ isWithinThreshold price t = true.
Proof.
  intros Hc. assert (Hin : In t (candidates price targets)) by (rewrite Hc; left; reflexivity).
  apply filter_In in Hin as [Hin Ht]. split; [apply list_elem_of_In, Hin | exact Ht].
Qed.

(** In variant A a tick raises at most one alert, for the first target of
    the list that passes the threshold test, and makes at most one call per
    chat id, whatever the list of targets and the state; variant B raises one
    alert for every target that passes. *)
Theorem variant_A_alerts_once_per_tick
    (now : Z) (trade : TradeMessage) (price : float) (targets : list float)
    (st : VariantA.State) :
  let out := (VariantA.rangeTargets now trade price targets st).1.2 in
  (length (alerts out) <= 1)%nat
  /\ (forall a : string * float * float,
         a ∈ alerts out ->
         a.1.1 = Symbol trade /\ a.1.2 = price
         /\ head (candidates price targets) = Some a.2)
  /\ (length (sent out) <= length VariantA.chatIds)%nat
  /\ alerts (VariantB.rangeTargets trade price targets)
     = map (fun t => (Symbol trade, price, t)) (candidates price targets).
Proof.
  cbv zeta. rewrite rangeTargetsA_cases.
  split; [|split; [|split]].
  - destruct (if VariantA.gateOpen st (Symbol trade) then _ else _) as [|t rest];
      [simpl; lia|].
    destruct (VariantA.bot st); cbn [fst snd]; [|simpl; lia].
    rewrite alerts_app, alerts_sendLog. simpl. lia.
  - intros a. destruct (VariantA.gateOpen st (Symbol trade)); [|intros []%elem_of_nil].
    destruct (candidates price targets) as [|t rest]; [intros []%elem_of_nil|].
    destruct (VariantA.bot st); cbn [fst snd]; [|intros []%elem_of_nil].
    rewrite alerts_app, alerts_sendLog. cbn.
    intros ->%list_elem_of_singleton. auto.
  - destruct (if VariantA.gateOpen st (Symbol trade) then _ else _) as [|t rest];
      [simpl; lia|].
    destruct (VariantA.bot st); cbn [fst snd]; [|simpl; lia].
    rewrite sent_alert by reflexivity. rewrite length_map. lia.
  - rewrite rangeTargetsB_candidates. apply alerts_map_LogAlert.
Qed.

(** What one frame does in variant A: either a quiet pass, which raises no
    alert and sends nothing, or a delivered alert. *)
Lemma stepA_inv (now : Z) (r : ReadResult) (st : VariantA.State) :
  let st0 := VariantA.runCallback now st in
  let st1 := (VariantA.step now r st).1.1 in
  let out := (VariantA.step now r st).1.2 in
  let c := (VariantA.step now r st).2 in
  (alerts out = [] /\ sent out = []
   /\ (st1 = st0
       \/ (st1 = VariantA.pollTimer st0 /\ c = Next)
       \/ (exists symbol, st1 = VariantA.arm now symbol st0 /\ c = Panicked)))
  \/ (exists (message : string) (trade : TradeMessage) (price : float)
        (targets : list float) (target : float) (rest : list float),
         r = ReadOk message /\ decodes message trade price
         /\ VariantA.priceTargets !! Symbol trade = Some targets
         /\ candidates price targets = target :: rest
         /\ VariantA.gateOpen st0 (Symbol trade) = true
         /\ VariantA.bot st0 = true
         /\ st1 = addSends (length VariantA.chatIds)
                    (VariantA.arm now (Symbol trade) st0)
         /\ out = (sendLog (VariantA.sendCalls st0)
                     (map (notification trade price target) VariantA.chatIds)
                   ++ [LogAlert (Symbol trade) price target])%list
         /\ c = Next).
Proof.
  cbv zeta. unfold VariantA.step.
  generalize (VariantA.runCallback now st). clear st. intros st.
  unfold VariantA.iteration.
  assert (Hquiet : forall (st1 : VariantA.State) (out : list Effect) (c : Control),
             alerts out = [] -> sent out = [] ->
             st1 = st \/ (st1 = VariantA.pollTimer st /\ c = Next)
             \/ (exists symbol, st1 = VariantA.arm now symbol st /\ c = Panicked) ->
             (alerts (st1, out, c).1.2 = [] /\ sent (st1, out, c).1.2 = []
              /\ ((st1, out, c).1.1 = st
                  \/ ((st1, out, c).1.1 = VariantA.pollTimer st /\ (st1, out, c).2 = Next)
                  \/ (exists symbol, (st1, out, c).1.1 = VariantA.arm now symbol st
                                     /\ (st1, out, c).2 = Panicked)))
             \/ (exists (message : string) (trade : TradeMessage) (price : float)
                   (targets : list float) (target : float) (rest : list float),
                    r = ReadOk message /\ decodes message trade price
                    /\ VariantA.priceTargets !! Symbol trade = Some targets
                    /\ candidates price targets = target :: rest
                    /\ VariantA.gateOpen st (Symbol trade) = true
                    /\ VariantA.bot st = true
                    /\ (st1, out, c).1.1
                       = addSends (length VariantA.chatIds)
                           (VariantA.arm now (Symbol trade) st)
                    /\ (st1, out, c).1.2
                       = (sendLog (VariantA.sendCalls st)
                            (map (notification trade price target) VariantA.chatIds)
                          ++ [LogAlert (Symbol trade) price target])%list
                    /\ (st1, out, c).2 = Next))
    by (intros; left; auto).
  destruct r as [[]|message]; [apply Hquiet; auto..|].
  destruct (json_Unmarshal message) as [trade|] eqn:Hjson; [|apply Hquiet; auto].
  destruct (String.eqb _ _) eqn:Hevent; [|apply Hquiet; auto].
  destruct (strconv_ParseFloat (Price trade)) as [price|] eqn:Hprice;
    [|apply Hquiet; auto].
  unfold VariantA.evaluate.
  destruct (VariantA.priceTargets !! Symbol trade) as [targets|] eqn:Hs;
    [|apply Hquiet; auto].
  rewrite rangeTargetsA_cases.
  destruct (VariantA.gateOpen st (Symbol trade)) eqn:Hgate; [|apply Hquiet; auto].
  destruct (candidates price targets) as [|target rest] eqn:Hcand;
    [apply Hquiet; auto|].
  destruct (VariantA.bot st) eqn:Hbot; [|apply Hquiet; eauto].
  clear Hquiet. right. exists message, trade, price, targets, target, rest.
  repeat split; trivial.
Qed.

Lemma alerts_delivered (n : nat) (messages : list TradeTelegramMessage)
    (symbol : string) (price target : float) :
  alerts (sendLog n messages ++ [LogAlert symbol price target])
  = [(symbol, price, target)].
Proof. rewrite alerts_app, alerts_sendLog. reflexivity. Qed.

End Passes.

(** ** Whole runs *)

Section Runs.
Context `{GoLib}.

(** Every alert of a pass of variant A is accounted for by the table and by
    the frame of the pass. *)
Lemma stepA_justified (now : Z) (r : ReadResult) (st : VariantA.State) :
  Forall (fun a => justified VariantA.priceTargets a
                   /\ exists message, r = ReadOk message /\ reports message a)
         (alerts (VariantA.step now r st).1.2).
Proof.
  destruct (stepA_inv now r st) as [(Hnone & _) | Hsent]; cbv zeta in *.
  - rewrite Hnone. constructor.
  - destruct Hsent as (message & trade & price & targets & target & rest & -> & Hdec
                       & Hs & Hcand & _ & _ & _ & -> & _).
    rewrite alerts_delivered. destruct (candidates_head _ _ _ _ Hcand) as [Hin Hwithin].
    repeat constructor.
    + exists targets. auto.
    + exists message. split; [reflexivity|]. exists trade. auto.
Qed.

Lemma readerA_justified (rs : list (Z * ReadResult)) (st : VariantA.State) :
  Forall (fun a => justified VariantA.priceTargets a
                   /\ exists now message, (now, ReadOk message) ∈ rs /\ reports message a)
         (alerts (VariantA.reader rs st).1.2).
Proof.
  revert st. induction rs as [|[now r] rest IH]; intros st; [constructor|].
  rewrite readerA_cons. pose proof (stepA_justified now r st) as Hstep.
  assert (Hhere : Forall (fun a => justified VariantA.priceTargets a
                     /\ exists now' message,
                          (now', ReadOk message) ∈ (now, r) :: rest /\ reports message a)
                    (alerts (VariantA.step now r st).1.2)).
  { eapply Forall_impl; [exact Hstep|].
    intros a (Hj & message & -> & Hrep). split; [exact Hj|].
    exists now, message. split; [left | exact Hrep]. }
  destruct (VariantA.step now r st) as [[st1 out] c]. cbn [fst snd] in *.
  destruct c; cbn [fst snd]; trivial.
  specialize (IH st1). destruct (VariantA.reader rest st1) as [[st2 out'] e].
  cbn [fst snd] in *. rewrite alerts_app. apply Forall_app. split; [exact Hhere|].
  eapply Forall_impl; [exact IH|].
  intros a (Hj & now' & message & Hin & Hrep). split; [exact Hj|].
  exists now', message. split; [right; exact Hin | exact Hrep].
Qed.

Lemma iterationB_justified (r : ReadResult) :
  Forall (fun a => justified VariantB.priceTargets a
                   /\ exists message, r = ReadOk message /\ reports message a)
         (alerts (VariantB.iteration r).1).
Proof.
  unfold VariantB.iteration.
  destruct r as [[]|message]; [constructor..|].
  destruct (json_Unmarshal message) as [trade|] eqn:Hjson; [|constructor].
  destruct (String.eqb _ _) eqn:Hevent; [|constructor].
  destruct (strconv_ParseFloat (Price trade)) as [price|] eqn:Hprice; [|constructor].
  unfold VariantB.evaluate.
  destruct (VariantB.priceTargets !! Symbol trade) as [targets|] eqn:Hs; [|constructor].
  cbn [fst]. rewrite rangeTargetsB_candidates, alerts_map_LogAlert.
  apply Forall_forall. intros a Ha. apply list_elem_of_In, in_map_iff in Ha as [t [<- Ht]].
  apply filter_In in Ht as [Hin Hwithin]. split.
  - exists targets. repeat split; trivial. apply list_elem_of_In, Hin.
  - exists message. split; [reflexivity|]. exists trade. repeat split; trivial.
Qed.

Lemma readerB_justified (rs : list ReadResult) :
  Forall (fun a => justified VariantB.priceTargets a
                   /\ exists message, ReadOk message ∈ rs /\ reports message a)
         (alerts (VariantB.reader rs).1).
Proof.
  induction rs as [|r rest IH]; [constructor|].
  rewrite readerB_cons. pose proof (iterationB_justified r) as Hstep.
  assert (Hhere : Forall (fun a => justified VariantB.priceTargets a
                     /\ exists message, ReadOk message ∈ r :: rest /\ reports message a)
                    (alerts (VariantB.iteration r).1)).
  { eapply Forall_impl; [exact Hstep|].
    intros a (Hj & message & -> & Hrep). split; [exact Hj|].
    exists message. split; [left | exact Hrep]. }
  destruct (VariantB.iteration r) as [out c]. cbn [fst snd] in *.
  destruct c; cbn [fst snd]; trivial.
  destruct (VariantB.reader rest) as [out' e].
  cbn [fst snd] in *. rewrite alerts_app. apply Forall_app. split; [exact Hhere|].
  eapply Forall_impl; [exact IH|].
  intros a (Hj & message & Hin & Hrep). split; [exact Hj|].
  exists message. split; [right; exact Hin | exact Hrep].
Qed.

Lemma justified_finite (a : string * float * float) :
  justified VariantA.priceTargets a \/ justified VariantB.priceTargets a ->
  nonNegativeFinite a.1.2 = true.
Proof.
  intros [(targets & Hs & Hin & Hw) | (targets & Hs & Hin & Hw)];
    eapply FloatEdges.within_configured_finite; eauto.
Qed.

(** No false alert: in both variants every alert line of a run names a
    configured symbol and one of its targets, with a price that is within
    the threshold of that target, that is non-negative and finite, and that
    is the parsed price of a trade event of that symbol among the frames
    read. *)
Theorem every_alert_is_justified
    (s : Startup) (rsA : list (Z * ReadResult)) (rsB : list ReadResult) :
  Forall (fun a => justified VariantA.priceTargets a
                   /\ nonNegativeFinite a.1.2 = true
                   /\ exists now message,
                        (now, ReadOk message) ∈ rsA /\ reports message a)
         (alerts (VariantA.main s rsA).1)
  /\ Forall (fun a => justified VariantB.priceTargets a
                      /\ nonNegativeFinite a.1.2 = true
                      /\ exists message, ReadOk message ∈ rsB /\ reports message a)
            (alerts (VariantB.main s rsB).1).
Proof.
  split.
  - unfold VariantA.main.
    destruct (dialErr s); [destruct (botErr s); constructor|].
    destruct (writeErr s); [destruct (botErr s); constructor|].
    pose proof (readerA_justified rsA (VariantA.initial s)) as Hrun.
    destruct (VariantA.reader rsA (VariantA.initial s)) as [[st out] e].
    cbn [fst snd] in *. rewrite !alerts_app.
    replace (alerts (if botErr s then [LogBotError] else [])) with
      (@nil (string * float * float)) by (destruct (botErr s); reflexivity).
    replace (alerts match e with Crashed => [] | _ => [LogShutdown] end) with
      (@nil (string * float * float)) by (destruct e; reflexivity).
    cbn. rewrite app_nil_r.
    eapply Forall_impl; [exact Hrun|].
    intros a (Hj & Hrep). repeat split; auto. apply justified_finite. auto.
  - unfold VariantB.main.
    destruct (dialErr s); [constructor|]. destruct (writeErr s); [constructor|].
    pose proof (readerB_justified rsB) as Hrun.
    destruct (VariantB.reader rsB) as [out e].
    cbn [fst snd] in *. rewrite !alerts_app.
    replace (alerts match e with Crashed => [] | _ => [LogShutdown] end) with
      (@nil (string * float * float)) by (destruct e; reflexivity).
    cbn. rewrite app_nil_r.
    eapply Forall_impl; [exact Hrun|].
    intros a (Hj & Hrep). repeat split; auto. apply justified_finite. auto.
Qed.

End Runs.

(** ** The suppression over a run *)

Section Cooldown.
Context `{GoLib}.

Lemma runCallback_up (now : Z) (st : VariantA.State) :
  VariantA.alertEmitted (VariantA.runCallback now st) = true ->
  VariantA.runCallback now st = st.
Proof.
  unfold VariantA.runCallback.
  destruct (VariantA.callbackAt (VariantA.alertTimer st)) as [d|]; [|reflexivity].
  destruct (d <=? now)%Z; [discriminate | reflexivity].
Qed.

Lemma pollTimer_deadline (st : VariantA.State) :
  VariantA.callbackAt (VariantA.alertTimer (VariantA.pollTimer st))
  = VariantA.callbackAt (VariantA.alertTimer st).
Proof.
  unfold VariantA.pollTimer.
  destruct (VariantA.chanC (VariantA.alertTimer st)) as [[]|]; reflexivity.
Qed.

Lemma pending_impl (P Q : Z -> Prop) (st : VariantA.State) :
  (forall t, P t -> Q t) -> pending P st -> pending Q st.
Proof. intros HPQ Hp Hup. destruct (Hp Hup) as (t & Ht & Hat). eauto. Qed.

Lemma step_pending (P : Z -> Prop) (now : Z) (r : ReadResult) (st : VariantA.State) :
  pending P st -> pending (fun t => P t \/ t = now) (VariantA.step now r st).1.1.
Proof.
  intros Hp.
  assert (Hp0 : pending (fun t => P t \/ t = now) (VariantA.runCallback now st)).
  { intros Hup. pose proof (runCallback_up _ _ Hup) as Hsame.
    rewrite Hsame in Hup |- *. destruct (Hp Hup) as (t & Ht & Hat). eauto. }
  assert (Harm : forall n symbol,
             pending (fun t => P t \/ t = now)
               (addSends n (VariantA.arm now symbol (VariantA.runCallback now st)))).
  { intros n symbol _. exists now. split; [right|]; reflexivity. }
  destruct (stepA_inv now r st) as [(_ & _ & [-> | [[-> _] | [symbol [-> _]]]]) | Hsent];
    cbv zeta in *.
  - exact Hp0.
  - intros Hup. apply pollTimer_keeps in Hup. rewrite pollTimer_deadline. auto.
  - intros _. exists now. split; [right|]; reflexivity.
  - destruct Hsent as (m & trade & p & ts & t & rest & _ & _ & _ & _ & _ & _ & -> & _).
    apply Harm.
Qed.

Lemma reader_pending (P : Z -> Prop) (rs : list (Z * ReadResult))
    (st : VariantA.State) :
  pending P st ->
  pending (fun t => P t \/ exists r, (t, r) ∈ rs) (VariantA.reader rs st).1.1.
Proof.
  revert P st. induction rs as [|[now r] rest IH]; intros P st Hp.
  - eapply pending_impl; [|exact Hp]. auto.
  - rewrite readerA_cons. pose proof (step_pending P now r st Hp) as Hstep.
    assert (Hhere : pending (fun t => P t \/ exists r', (t, r') ∈ (now, r) :: rest)
                      (VariantA.step now r st).1.1).
    { eapply pending_impl; [|exact Hstep].
      intros t [Ht | ->]; [left; exact Ht | right; exists r; left]. }
    destruct (VariantA.step now r st) as [[st1 out] c]. cbn [fst snd] in *.
    destruct c; cbn [fst snd]; trivial.
    specialize (IH _ st1 Hstep).
    destruct (VariantA.reader rest st1) as [[st2 out'] e]. cbn [fst snd] in *.
    eapply pending_impl; [|exact IH].
    intros t [[Ht | ->] | [r' Hin]]; [left; exact Ht | right; exists r; left
                                     | right; exists r'; right; exact Hin].
Qed.

(** Suppression never outlives its minute: at any point of a run at which
    the flag is up, a callback is due one minute after the instant of one of
    the frames read, and at the first frame from that deadline on the gate
    is open again for every symbol. *)
Theorem suppression_always_expires (s : Startup) (rs : list (Z * ReadResult)) :
  VariantA.alertEmitted (VariantA.reader rs (VariantA.initial s)).1.1 = true ->
  exists (t : Z) (r : ReadResult),
    (t, r) ∈ rs
    /\ VariantA.callbackAt (VariantA.alertTimer (VariantA.reader rs (VariantA.initial s)).1.1)
       = Some (t + VariantA.minute)%Z
    /\ forall (later : Z) (symbol : string),
         (t + VariantA.minute <= later)%Z ->
         VariantA.gateOpen
           (VariantA.runCallback later (VariantA.reader rs (VariantA.initial s)).1.1)
           symbol = true.
Proof.
  intros Hup.
  assert (Hinit : pending (fun _ => False) (VariantA.initial s)) by discriminate.
  destruct (reader_pending _ rs _ Hinit Hup) as (t & [[] | [r Hin]] & Hat).
  exists t, r. repeat split; trivial.
  intros later symbol Hlater. apply gateOpen_iff. left.
  apply (runCallback_due _ _ _ Hat Hlater).
Qed.

(** A frame keeps the state cooling, and an alert it raises keeps its
    distance from the one before. *)
Lemma step_cooling (prev : option (Z * string)) (lo now : Z) (r : ReadResult)
    (st : VariantA.State) :
  cooling prev lo st -> (lo <= now)%Z ->
  let st1 := (VariantA.step now r st).1.1 in
  let out := (VariantA.step now r st).1.2 in
  let c := (VariantA.step now r st).2 in
  (alerts out = [] /\ (c = Next -> cooling prev now st1))
  \/ (exists (symbol : string) (price target : float),
         alerts out = [(symbol, price, target)] /\ c = Next
         /\ cooling (Some (now, symbol)) now st1
         /\ match prev with
            | Some a => a.2 <> symbol \/ (a.1 + VariantA.minute <= now)%Z
            | None => True
            end).
Proof.
  intros [Hchan Hcool] Hlo.
  set (st0 := VariantA.runCallback now st).
  assert (Hchan0 : channelEmpty st0).
  { unfold channelEmpty, st0.
    destruct (runCallback_keeps now st) as (_ & _ & _ & -> & _). exact Hchan. }
  assert (Hcool0 : cooling prev now st0).
  { split; [exact Hchan0|]. destruct prev as [a|].
    - destruct (VariantA.alertEmitted st0) eqn:Hup0.
      + subst st0. pose proof (runCallback_up _ _ Hup0) as Hsame.
        rewrite Hsame in Hup0 |- *. rewrite Hup0 in Hcool. exact Hcool.
      + destruct (VariantA.alertEmitted st) eqn:Hup; [|lia].
        destruct Hcool as [_ Hat].
        destruct (Z.le_gt_cases (a.1 + VariantA.minute) now) as [Hle | Hgt]; [exact Hle|].
        unfold st0 in Hup0. rewrite (runCallback_pending now _ st Hat) in Hup0 by lia.
        congruence.
    - apply not_true_is_false. intros Hup0%runCallback_keeps. congruence. }
  cbv zeta.
  destruct (stepA_inv now r st) as [(Hnone & _ & Hst) | Hsent]; cbv zeta in *;
    fold st0 in Hst || fold st0 in Hsent.
  - left. split; [exact Hnone|]. intros HNext.
    destruct Hst as [-> | [[-> _] | [symbol [_ Hc]]]]; [exact Hcool0 | | congruence].
    rewrite (pollTimer_empty _ Hchan0). exact Hcool0.
  - destruct Hsent as (m & trade & p & ts & t & rest & _ & _ & _ & _ & Hgate & _
                       & -> & -> & ->).
    right. exists (Symbol trade), p, t.
    split; [apply alerts_delivered|]. split; [reflexivity|].
    split; [split; [discriminate | split; reflexivity]|].
    destruct prev as [a|]; [|exact I].
    apply gateOpen_iff in Hgate. destruct Hcool0 as [_ Hcool0].
    destruct (VariantA.alertEmitted st0); [|right; exact Hcool0].
    destruct Hcool0 as [Hsym _]. destruct Hgate as [Hdown | Hother]; [discriminate|].
    left. congruence.
Qed.

Lemma alertLog_cons (now : Z) (r : ReadResult) (rest : list (Z * ReadResult))
    (st : VariantA.State) :
  alertLog ((now, r) :: rest) st
  = (map (fun a => (now, a.1.1)) (alerts (VariantA.step now r st).1.2)
     ++ match (VariantA.step now r st).2 with
        | Next => alertLog rest (VariantA.step now r st).1.1
        | _ => []
        end)%list.
Proof. cbn [alertLog]. destruct (VariantA.step now r st) as [[st1 out] c]. reflexivity. Qed.

Lemma alertLog_spaced (rs : list (Z * ReadResult)) (st : VariantA.State)
    (prev : option (Z * string)) (lo : Z) :
  cooling prev lo st ->
  Sorted Z.le (lo :: map fst rs) ->
  spaced (match prev with Some a => [a] | None => [] end ++ alertLog rs st).
Proof.
  revert st prev lo. induction rs as [|[now r] rest IH]; intros st prev lo Hcool Hsorted.
  - destruct prev; exact I.
  - apply Sorted_inv in Hsorted as [Htail Hhd]. apply HdRel_inv in Hhd.
    rewrite alertLog_cons.
    destruct (step_cooling prev lo now r st Hcool Hhd)
      as [(Hnone & Hnext) | (symbol & p & t & Hone & Hc & Hcool1 & Hgap)];
      cbv zeta in *.
    + rewrite Hnone. cbn [map app].
      destruct (VariantA.step now r st).2; [|destruct prev; exact I..].
      apply (IH _ prev now (Hnext eq_refl) Htail).
    + rewrite Hone, Hc. cbn [map app fst snd].
      pose proof (IH _ (Some (now, symbol)) now Hcool1 Htail) as Hrest.
      destruct prev as [a|]; [|exact Hrest].
      split; [exact Hgap | exact Hrest].
Qed.

Lemma alertLog_symbols (rs : list (Z * ReadResult)) (st : VariantA.State) :
  map snd (alertLog rs st)
  = map (fun a => a.1.1) (alerts (VariantA.reader rs st).1.2).
Proof.
  revert st. induction rs as [|[now r] rest IH]; intros st; [reflexivity|].
  rewrite alertLog_cons, readerA_cons.
  destruct (VariantA.step now r st) as [[st1 out] c]. cbn [fst snd].
  assert (Hhere : map snd (map (fun a : string * float * float => (now, a.1.1)) (alerts out))
                  = map (fun a => a.1.1) (alerts out))
    by (rewrite map_map; reflexivity).
  destruct c; cbn [fst snd]; rewrite ?app_nil_r; trivial.
  specialize (IH st1). destruct (VariantA.reader rest st1) as [[st2 out'] e].
  cbn [fst snd] in *. rewrite alerts_app, !map_app, Hhere, IH. reflexivity.
Qed.

(** Over a run whose frames arrive in order, two successive alerts carry
    different symbols or are at least one minute apart; the log of alerts
    this is said of lists the alert lines of the run in order. *)
Theorem successive_alerts_are_spaced (s : Startup) (rs : list (Z * ReadResult)) :
  Sorted Z.le (map fst rs) ->
  spaced (alertLog rs (VariantA.initial s))
  /\ map snd (alertLog rs (VariantA.initial s))
     = map (fun a => a.1.1) (alerts (VariantA.reader rs (VariantA.initial s)).1.2).
Proof.
  intros Hsorted. split; [|apply alertLog_symbols].
  destruct rs as [|[now r] rest]; [exact I|].
  apply (alertLog_spaced _ _ None now).
  - split; [discriminate | reflexivity].
  - constructor; [exact Hsorted|]. constructor. reflexivity.
Qed.

End Cooldown.

(** ** How a run ends, and the frames that do not count *)

Section Endings.
Context `{GoLib}.

Lemma readerB_stopped (rs more : list ReadResult) :
  (VariantB.reader rs).2 <> Interrupted ->
  VariantB.reader (rs ++ more) = VariantB.reader rs.
Proof.
  induction rs as [|r rest IH]; [intros Hstop; contradiction Hstop; reflexivity|].
  rewrite <- app_comm_cons, !readerB_cons.
  destruct (VariantB.iteration r) as [out c]. destruct c; trivial.
  destruct (VariantB.reader rest) as [out' e] eqn:Hrest. cbn [snd] in *.
  intros Hstop. rewrite (IH Hstop). reflexivity.
Qed.

Lemma readerA_stopped (rs more : list (Z * ReadResult)) (st : VariantA.State) :
  (VariantA.reader rs st).2 <> Interrupted ->
  VariantA.reader (rs ++ more) st = VariantA.reader rs st.
Proof.
  revert st. induction rs as [|[now r] rest IH]; intros st;
    [intros Hstop; contradiction Hstop; reflexivity|].
  rewrite <- app_comm_cons, !readerA_cons.
  destruct (VariantA.step now r st) as [[st1 out] c]. destruct c; trivial.
  specialize (IH st1).
  destruct (VariantA.reader rest st1) as [[st2 out'] e] eqn:Hrest. cbn [snd] in *.
  intros Hstop. rewrite (IH Hstop). reflexivity.
Qed.

Lemma readerB_read_error (pre : list ReadResult) (closeErr : bool) :
  (VariantB.reader (pre ++ [ReadErr closeErr])).2 <> Interrupted.
Proof.
  induction pre as [|r rest IH]; [discriminate|].
  rewrite <- app_comm_cons, readerB_cons.
  destruct (VariantB.iteration r) as [out c]. destruct c; try discriminate.
  destruct (VariantB.reader (rest ++ [ReadErr closeErr])) as [out' e]. exact IH.
Qed.

Lemma readerA_read_error (pre : list (Z * ReadResult)) (now : Z) (closeErr : bool)
    (st : VariantA.State) :
  (VariantA.reader (pre ++ [(now, ReadErr closeErr)]) st).2 <> Interrupted.
Proof.
  revert st. induction pre as [|[t r] rest IH]; intros st; [discriminate|].
  rewrite <- app_comm_cons, readerA_cons.
  destruct (VariantA.step t r st) as [[st1 out] c]. destruct c; try discriminate.
  specialize (IH st1).
  destruct (VariantA.reader (rest ++ [(now, ReadErr closeErr)]) st1) as [[st2 out'] e].
  exact IH.
Qed.

(** Once a run has ended otherwise than by a signal (a start-up failure, a
    read error or a panic), whatever the connection would still deliver has
    no effect; and a read error always ends the run.  There is no reconnect
    and no frame is handled after the reader has stopped. *)
Theorem nothing_is_read_after_the_reader_stops
    (s : Startup) (rsA moreA : list (Z * ReadResult)) (rsB moreB : list ReadResult) :
  ((VariantA.main s rsA).2 <> Interrupted ->
   VariantA.main s (rsA ++ moreA) = VariantA.main s rsA)
  /\ ((VariantB.main s rsB).2 <> Interrupted ->
      VariantB.main s (rsB ++ moreB) = VariantB.main s rsB)
  /\ (forall (now : Z) (closeErr : bool),
         (VariantA.main s (rsA ++ [(now, ReadErr closeErr)])).2 <> Interrupted)
  /\ (forall closeErr : bool,
         (VariantB.main s (rsB ++ [ReadErr closeErr])).2 <> Interrupted).
Proof.
  split; [|split; [|split]].
  - unfold VariantA.main. destruct (dialErr s); [reflexivity|].
    destruct (writeErr s); [reflexivity|].
    pose proof (readerA_stopped rsA moreA (VariantA.initial s)) as Hstop.
    destruct (VariantA.reader rsA (VariantA.initial s)) as [[st out] e].
    cbn [snd] in *. intros He. rewrite (Hstop He). reflexivity.
  - unfold VariantB.main. destruct (dialErr s); [reflexivity|].
    destruct (writeErr s); [reflexivity|].
    pose proof (readerB_stopped rsB moreB) as Hstop.
    destruct (VariantB.reader rsB) as [out e].
    cbn [snd] in *. intros He. rewrite (Hstop He). reflexivity.
  - intros now closeErr. unfold VariantA.main.
    destruct (dialErr s); [discriminate|]. destruct (writeErr s); [discriminate|].
    pose proof (readerA_read_error rsA now closeErr (VariantA.initial s)) as Hend.
    destruct (VariantA.reader _ _) as [[st out] e]. exact Hend.
  - intros closeErr. unfold VariantB.main.
    destruct (dialErr s); [discriminate|]. destruct (writeErr s); [discriminate|].
    pose proof (readerB_read_error rsB closeErr) as Hend.
    destruct (VariantB.reader _) as [out e]. exact Hend.
Qed.

(** With a bot handle, a pass of variant A ends as the pass of variant B
    on the same result does. *)
Lemma step_control (now : Z) (r : ReadResult) (st : VariantA.State) :
  VariantA.bot st = true ->
  (VariantA.step now r st).2 = (VariantB.iteration r).2.
Proof.
  intros Hbot. unfold VariantA.step.
  assert (Hbot0 : VariantA.bot (VariantA.runCallback now st) = true)
    by (destruct (runCallback_keeps now st) as (-> & _); exact Hbot).
  revert Hbot0. generalize (VariantA.runCallback now st). clear st Hbot.
  intros st Hbot. unfold VariantA.iteration, VariantB.iteration.
  destruct r as [closeErr|message]; [reflexivity|].
  destruct (json_Unmarshal message) as [trade|]; [|reflexivity].
  destruct (String.eqb _ _); [|reflexivity].
  destruct (strconv_ParseFloat (Price trade)) as [price|]; [|reflexivity].
  rewrite evaluateA_spec by exact Hbot.
  destruct (VariantA.priceTargets !! Symbol trade); [|reflexivity].
  destruct (if VariantA.gateOpen st (Symbol trade) then _ else _); reflexivity.
Qed.

Lemma reader_exit (rs : list (Z * ReadResult)) (st : VariantA.State) :
  VariantA.bot st = true ->
  (VariantA.reader rs st).2 = (VariantB.reader (map snd rs)).2.
Proof.
  revert st. induction rs as [|[now r] rest IH]; intros st Hbot; [reflexivity|].
  cbn [map snd]. rewrite readerA_cons, readerB_cons.
  pose proof (step_control now r st Hbot) as Hc.
  destruct (stepA_fanout now r st Hbot) as [Hbot1 _].
  destruct (VariantA.step now r st) as [[st1 out] c].
  destruct (VariantB.iteration r) as [outB cB]. cbn [fst snd] in *. subst cB.
  destruct c; trivial.
  specialize (IH st1 Hbot1).
  destruct (VariantA.reader rest st1) as [[st2 out'] e].
  destruct (VariantB.reader (map snd rest)) as [outB' eB]. exact IH.
Qed.

(** De-duplication and the Telegram fan-out do not change how a run ends:
    when the bot handle was obtained, variant A ends as variant B does on
    the same results of [ReadMessage], whatever the calls to [bot.Send]
    answer and whenever the frames arrive. *)
Theorem both_variants_end_alike (s : Startup) (rs : list (Z * ReadResult)) :
  botErr s = false ->
  (VariantA.main s rs).2 = (VariantB.main s (map snd rs)).2.
Proof.
  intros Hbot. unfold VariantA.main, VariantB.main.
  destruct (dialErr s); [reflexivity|]. destruct (writeErr s); [reflexivity|].
  assert (Hbot0 : VariantA.bot (VariantA.initial s) = true)
    by (unfold VariantA.initial; simpl; rewrite Hbot; reflexivity).
  pose proof (reader_exit rs _ Hbot0) as Hexit.
  destruct (VariantA.reader rs (VariantA.initial s)) as [[st out] e].
  destruct (VariantB.reader (map snd rs)) as [outB eB]. exact Hexit.
Qed.

Lemma runCallback_twice (t1 t2 : Z) (st : VariantA.State) :
  (t1 <= t2)%Z ->
  VariantA.runCallback t2 (VariantA.runCallback t1 st) = VariantA.runCallback t2 st.
Proof.
  intros Hle. unfold VariantA.runCallback.
  destruct (VariantA.callbackAt (VariantA.alertTimer st)) as [d|] eqn:Hat;
    [|rewrite Hat; reflexivity].
  destruct (Z.leb_spec d t1) as [H1 | H1].
  - cbn. destruct (Z.leb_spec d t2); [reflexivity | lia].
  - rewrite Hat. reflexivity.
Qed.

Lemma reader_after_callback (now : Z) (rs : list (Z * ReadResult))
    (st : VariantA.State) :
  Forall (fun tr => (now <= tr.1)%Z) rs ->
  (VariantA.reader rs (VariantA.runCallback now st)).1.2 = (VariantA.reader rs st).1.2
  /\ (VariantA.reader rs (VariantA.runCallback now st)).2 = (VariantA.reader rs st).2.
Proof.
  destruct rs as [|[t r] rest]; [split; reflexivity|].
  intros [Hle _]%Forall_cons. cbn [fst] in Hle.
  rewrite !readerA_cons. unfold VariantA.step at 1 3.
  rewrite (runCallback_twice now t st Hle). split; reflexivity.
Qed.

(** A frame that decodes to something that is not a trade event (the
    answer to the subscription request, for one) does not count: dropping it
    from the input changes neither the trace nor the way the run ends.  For
    variant A this holds when the frames after it do not arrive before it. *)
Theorem frames_of_other_events_do_not_count
    (r : ReadResult) (now : Z) (st : VariantA.State)
    (preB postB : list ReadResult) (preA postA : list (Z * ReadResult)) :
  notTrade r ->
  VariantB.reader (preB ++ r :: postB) = VariantB.reader (preB ++ postB)
  /\ (Forall (fun tr => (now <= tr.1)%Z) postA ->
      (VariantA.reader (preA ++ (now, r) :: postA) st).1.2
      = (VariantA.reader (preA ++ postA) st).1.2
      /\ (VariantA.reader (preA ++ (now, r) :: postA) st).2
         = (VariantA.reader (preA ++ postA) st).2).
Proof.
  intros (message & trade & -> & Hjson & Hevent).
  assert (HB : VariantB.iteration (ReadOk message) = ([], Next))
    by (unfold VariantB.iteration; rewrite Hjson, Hevent; reflexivity).
  assert (HA : forall st', VariantA.step now (ReadOk message) st'
                           = (VariantA.runCallback now st', [], Next))
    by (intros st'; unfold VariantA.step, VariantA.iteration;
        rewrite Hjson, Hevent; reflexivity).
  split.
  - induction preB as [|r' rest IH].
    + cbn [app]. rewrite readerB_cons, HB.
      destruct (VariantB.reader postB). reflexivity.
    + rewrite <- !app_comm_cons, !readerB_cons, IH. reflexivity.
  - intros Horder. revert st. induction preA as [|[t r'] rest IH]; intros st.
    + cbn [app]. rewrite readerA_cons, HA.
      destruct (reader_after_callback now postA st Horder) as [Hout Hexit].
      destruct (VariantA.reader postA (VariantA.runCallback now st)) as [[st2 out] e].
      cbn [fst snd] in *. auto.
    + rewrite <- !app_comm_cons, !readerA_cons.
      destruct (VariantA.step t r' st) as [[st1 out] c].
      destruct c; [|split; reflexivity..].
      destruct (IH st1) as [Hout Hexit].
      destruct (VariantA.reader (rest ++ (now, ReadOk message) :: postA) st1)
        as [[st2 out2] e2].
      destruct (VariantA.reader (rest ++ postA) st1) as [[st3 out3] e3].
      cbn [fst snd] in *. subst. auto.
Qed.

End Endings.

(** ** The last line of a run *)

Section Shutdown.
Context `{GoLib}.











End Shutdown.

(** ** The further properties on sample runs *)

Section MoreSamples.
Import Sample.

Local Abbreviation start := (VariantA.initial startupA).

(** 209 lies between 208 and 212, both within one percent of 210. *)
Lemma band_is_an_interval_sample : isWithinThreshold 209 210 = true.
Proof.
  apply (band_is_an_interval 208 209 212 210); vm_compute; reflexivity.
Defined.

(** Two targets of one list whose bands overlap: variant B alerts for both,
    variant A for the first only. *)
Example overlapping_targets_sample :
  candidates 100.2 [100; 100.5]%float = [100; 100.5]%float
  /\ alerts (VariantB.rangeTargets (tick "SOLUSDT" "100.2") 100.2 [100; 100.5]%float)
     = [("SOLUSDT", 100.2, 100); ("SOLUSDT", 100.2, 100.5)]%float
  /\ alerts (VariantA.rangeTargets 0 (tick "SOLUSDT" "100.2") 100.2 [100; 100.5]%float
               start).1.2
     = [("SOLUSDT", 100.2, 100)]%float.
Proof. vm_compute. repeat split. Qed.

(** After an alert at instant 5 the callback is due at 5 + one minute. *)
Lemma suppression_expiry_sample :
  VariantA.alertEmitted
    (VariantA.reader [(5%Z, ReadOk (frame "SOLUSDT" "208.9"))] start).1.1 = true
  /\ exists (t : Z) (r : ReadResult),
       (t, r) ∈ [(5%Z, ReadOk (frame "SOLUSDT" "208.9"))]
       /\ VariantA.callbackAt
            (VariantA.alertTimer
               (VariantA.reader [(5%Z, ReadOk (frame "SOLUSDT" "208.9"))] start).1.1)
          = Some (t + VariantA.minute)%Z
       /\ forall (later : Z) (symbol : string),
            (t + VariantA.minute <= later)%Z ->
            VariantA.gateOpen
              (VariantA.runCallback later
                 (VariantA.reader [(5%Z, ReadOk (frame "SOLUSDT" "208.9"))] start).1.1)
              symbol = true.
Proof.
  split; [vm_compute; reflexivity|].
  apply (suppression_always_expires (H:=lib) startupA
           [(5%Z, ReadOk (frame "SOLUSDT" "208.9"))]).
  vm_compute. reflexivity.
Defined.

(** Four ticks in order of arrival: the second one of SOLUSDT is
    suppressed, the one of LINKUSDT is not, and SOLUSDT is alerted again
    once its minute is over. *)
Lemma spaced_alerts_sample :
  let rs := [(0%Z, ReadOk (frame "SOLUSDT" "208.9"));
             (1%Z, ReadOk (frame "SOLUSDT" "208.9"));
             (2%Z, ReadOk (frame "LINKUSDT" "21.7"));
             (60000000002%Z, ReadOk (frame "LINKUSDT" "21.7"))] in
  alertLog rs start
  = [(0%Z, "SOLUSDT"); (2%Z, "LINKUSDT"); (60000000002%Z, "LINKUSDT")]
  /\ spaced (alertLog rs start)
  /\ map snd (alertLog rs start)
     = map (fun a => a.1.1) (alerts (VariantA.reader rs start).1.2).
Proof.
  cbv zeta. split; [vm_compute; reflexivity|].
  apply (successive_alerts_are_spaced (H:=lib) startupA
           [(0%Z, ReadOk (frame "SOLUSDT" "208.9"));
            (1%Z, ReadOk (frame "SOLUSDT" "208.9"));
            (2%Z, ReadOk (frame "LINKUSDT" "21.7"));
            (60000000002%Z, ReadOk (frame "LINKUSDT" "21.7"))]).
  cbn [map fst].
  repeat first [apply Sorted_cons | apply Sorted_nil | apply HdRel_cons | apply HdRel_nil];
    discriminate.
Defined.

(** A tick followed by a close error: both variants end with the stream. *)
Lemma same_ending_sample :
  botErr startupA = false
  /\ (VariantA.main startupA
        [(0%Z, ReadOk (frame "SOLUSDT" "208.9")); (1%Z, ReadErr true)]).2 = StreamEnded
  /\ (VariantB.main startupA
        [ReadOk (frame "SOLUSDT" "208.9"); ReadErr true]).2 = StreamEnded.
Proof.
  split; [reflexivity|].
  pose proof (both_variants_end_alike (H:=lib) startupA
                [(0%Z, ReadOk (frame "SOLUSDT" "208.9")); (1%Z, ReadErr true)]
                eq_refl) as Hsame.
  assert (HB : (VariantB.main startupA
                  [ReadOk (frame "SOLUSDT" "208.9"); ReadErr true]).2 = StreamEnded)
    by (vm_compute; reflexivity).
  split; [rewrite Hsame; exact HB | exact HB].
Defined.

(** The answer to the subscription request between two ticks. *)
Lemma subscription_answer_sample :
  notTrade (ReadOk ack)
  /\ VariantB.reader [ReadOk (frame "SOLUSDT" "208.9"); ReadOk ack;
                      ReadOk (frame "LINKUSDT" "21.7")]
     = VariantB.reader [ReadOk (frame "SOLUSDT" "208.9");
                        ReadOk (frame "LINKUSDT" "21.7")]
  /\ (VariantA.reader [(0%Z, ReadOk (frame "SOLUSDT" "208.9")); (1%Z, ReadOk ack);
                       (2%Z, ReadOk (frame "LINKUSDT" "21.7"))] start).1.2
     = (VariantA.reader [(0%Z, ReadOk (frame "SOLUSDT" "208.9"));
                         (2%Z, ReadOk (frame "LINKUSDT" "21.7"))] start).1.2.
Proof.
  assert (Hack : notTrade (ReadOk ack)).
  { exists ack, zeroMessage. split; [reflexivity|]. split; vm_compute; reflexivity. }
  destruct (frames_of_other_events_do_not_count (H:=lib) (ReadOk ack) 1 start
              [ReadOk (frame "SOLUSDT" "208.9")] [ReadOk (frame "LINKUSDT" "21.7")]
              [(0%Z, ReadOk (frame "SOLUSDT" "208.9"))]
              [(2%Z, ReadOk (frame "LINKUSDT" "21.7"))] Hack) as (HB & HA).
  split; [exact Hack|]. split; [exact HB|].
  apply HA. repeat constructor. discriminate.
Defined.

End MoreSamples.
